(** * The wallet main window: refresh cycle and transaction reconciliation

    A shallow embedding of [MainWindow.refresh_values] (MainWindow.py): the
    four wallet RPC requests, the widgets they update, the reconciliation
    of every transaction of the fetched blocks (direction, confirmation,
    counterparty address) and the currency formatting
    ["{:,.2f}".format(x/100.)].

    Python integers are modelled by [Z]; Python floats by the binary64
    instance of the Standard Library's IEEE 754 specification
    ([SpecFloat], 53 bits of precision, round to nearest even); JSON
    objects of the wallet RPC by records; the GTK widgets the method
    writes to by a record of their contents; exceptions by a sum type and
    the method itself by a state-and-exception monad over the wallet
    connection and the widgets. *)

From Stdlib Require Import ZArith List String Ascii Bool Lia.
From Stdlib Require Import DecimalString.
From Stdlib Require Import Floats.SpecFloat.
Import ListNotations.

Local Open Scope string_scope.
Local Open Scope list_scope.
Local Open Scope Z_scope.

(** ** Exceptions *)

(** The exceptions a refresh cycle can end with, by the place that raises
    them.  [RPCFailure] is whatever [wallet_connection.request] raises;
    the others are raised by the method's own expressions.
    [TimestampError] is whatever [datetime.fromtimestamp] raises (in
    Python 3 a ValueError for a year out of range, an OverflowError or an
    OSError for a time stamp out of the platform's range); it is kept
    apart from [OverflowError], which is here the one of the division of
    an amount. *)
Inductive Exn : Type :=
| RPCFailure      (* the request itself raised *)
| KeyError        (* a key missing from a response *)
| IndexError      (* addresses[0] on an empty list *)
| OverflowError   (* int too large to convert to float *)
| TimestampError. (* datetime.fromtimestamp raised *)

(** ** Data of the wallet RPC *)

(** One entry of [transaction['transfers']]. *)
Record Transfer : Type := mkTransfer
  { transfer_address : string;
    transfer_amount : Z }.

(** One entry of [block['transactions']]. *)
Record RawTransaction : Type := mkTransaction
  { amount : Z;
    fee : Z;
    unlockTime : Z;
    timestamp : Z;
    transfers : list Transfer }.

(** One entry of the [items] of a [getTransactions] response. *)
Record Block : Type := mkBlock
  { transactions : list RawTransaction }.

(** A request: the method name with its [params]. *)
Inductive Request : Type :=
| getBalance
| getAddresses
| getStatus
| getTransactions (blockCount firstBlockIndex : Z) (addresses : list string).

(** A response, by the keys the method reads from it.  A response has
    all the keys of its kind or none of them: a response with some of
    the keys of its kind only, and a transaction, a transfer or a block
    without one of its keys, are not modelled; the key errors that the
    method raises on them are therefore no part of what is proved
    below. *)
Inductive Response : Type :=
| Balances (availableBalance lockedAmount : Z)
| Addresses (addresses : list string)
| Status (blockCount peerCount : Z)
| Transactions (items : list Block).

(** ** The widgets *)

(** A row of [transactions_list_store]: direction, confirmed, amount,
    time, address ([None] is Python's [None]). *)
Record Row : Type := mkRow
  { row_direction : string;
    row_confirmed : bool;
    row_amount : string;
    row_time : string;
    row_address : option string }.

(** What the window shows: the contents of the widgets [refresh_values]
    writes to. *)
Record View : Type := mkView
  { AvailableBalanceAmountLabel : string;
    LockedBalanceAmountLabel : string;
    AddressTextBox : string;
    transactions_list_store : list Row;
    MainStatusLabel : string }.

(** ** Currency formatting: ["{:,.2f}".format(x/100.)] *)

Module Currency.

(** binary64 *)
Definition prec : Z := 53.
Definition emax : Z := 1024.

(** The conversion of the integer operand of [x/100.] to a float: round to
  nearest even; Python raises [OverflowError] where the result would
  not be finite. *)
Definition float_of_int (x : Z) : option spec_float :=
match binary_normalize prec emax x 0 false with
| S754_infinity _ => None
| f => Some f
end.

(** The literal [100.] *)
Definition hundred : spec_float := binary_normalize prec emax 100 0 false.

(** [num / den] rounded to the nearest integer, ties to even
  ([den] positive, [num] non-negative). *)
Definition round_half_even_div (num den : Z) : Z :=
let q := num / den in
match 2 * (num mod den) ?= den with
| Lt => q
| Gt => q + 1
| Eq => if Z.even q then q else q + 1
end.

(** The magnitude [m * 2^e] of a float, in hundredths, correctly rounded:
  the digits the presentation [.2f] prints. *)
Definition hundredths (m : positive) (e : Z) : Z :=
match e with
| Zneg k => round_half_even_div (Zpos m * 100) (2 ^ Zpos k)
| _ => Zpos m * 100 * 2 ^ e
end.

(** The decimal digits of a non-negative integer. *)
Definition digits (n : Z) : list ascii :=
list_ascii_of_string (NilZero.string_of_uint (N.to_uint (Z.to_N n))).

(** The [,] option: a comma every three digits, counted from the right;
  on the reversed digits. *)
Fixpoint group_rev (ds : list ascii) : list ascii :=
match ds with
| a :: b :: c :: ((_ :: _) as rest) =>
    a :: b :: c :: ","%char :: group_rev rest
| _ => ds
end.

Definition group (ds : list ascii) : list ascii := rev (group_rev (rev ds)).

Definition two_digits (n : Z) : list ascii :=
if n <? 10 then "0"%char :: digits n else digits n.

(** Sign, grouped integer part, point, two decimals: a number given by its
  sign and its magnitude in hundredths. *)
Definition render (negative : bool) (h : Z) : string :=
string_of_list_ascii
  ((if negative then ["-"%char] else []) ++
   group (digits (h / 100)) ++ "."%char :: two_digits (h mod 100)).

(** ["{:,.2f}".format(f)] *)
Definition format_2f (f : spec_float) : string :=
match f with
| S754_zero s => render s 0
| S754_finite s m e => render s (hundredths m e)
| S754_infinity s => if s then "-inf" else "inf"
| S754_nan => "nan"
end.

(** ["{:,.2f}".format(x/100.)] for an integer [x]. *)
Definition format_currency (x : Z) : Exn + string :=
match float_of_int x with
| None => inl OverflowError
| Some f => inr (format_2f (SFdiv prec emax f hundred))
end.

(** The reading of the specification: the amount divided by 100, exactly,
  with thousands separators and two decimal places, a leading minus for
  a negative amount. *)
Definition exact_currency (x : Z) : string := render (x <? 0) (Z.abs x).

End Currency.

(** ** Reconciliation of one transaction *)

(** Lines 93-98: the amount of the transfer that names the counterparty. *)
Definition desired_transfer_amount (transaction : RawTransaction) : Z :=
  if amount transaction <? 0
  then (amount transaction + fee transaction) * -1
  else amount transaction.

(** Lines 92, 101-103: [address] starts as [None] and is overwritten by
    every transfer of the desired amount. *)
Definition find_address (desired : Z) (ts : list Transfer) : option string :=
  fold_left
    (fun address transfer =>
       if transfer_amount transfer =? desired
       then Some (transfer_address transfer)
       else address)
    ts None.

(** Line 108 *)
Definition direction (transaction : RawTransaction) : string :=
  if amount transaction >? 0 then "In" else "Out".

(** Line 111.  [unlockTime is 0] compares with the interpreter's one
    integer object 0, which for an integer operand is equality with 0. *)
Definition confirmed (blockCount : Z) (transaction : RawTransaction) : bool :=
  (unlockTime transaction =? 0)
  || (unlockTime transaction <=? blockCount - 40).

(** Line 120: the text of the status label; [now] is the local time of day
    already rendered by [strftime("%H:%M:%S")]. *)
Definition str (n : Z) : string := NilZero.string_of_int (Z.to_int n).

Definition status_line (blockCount peerCount : Z) (now : string) : string :=
  String.append "Current block height: "
    (String.append (str blockCount)
       (String.append " | Peer count "
          (String.append (str peerCount)
             (String.append " | Last Updated " now)))).

(** Writing to one widget leaves the others as they are. *)
Definition set_AvailableBalanceAmountLabel (x : string) (v : View) : View :=
  mkView x (LockedBalanceAmountLabel v) (AddressTextBox v)
         (transactions_list_store v) (MainStatusLabel v).

Definition set_LockedBalanceAmountLabel (x : string) (v : View) : View :=
  mkView (AvailableBalanceAmountLabel v) x (AddressTextBox v)
         (transactions_list_store v) (MainStatusLabel v).

Definition set_AddressTextBox (x : string) (v : View) : View :=
  mkView (AvailableBalanceAmountLabel v) (LockedBalanceAmountLabel v) x
         (transactions_list_store v) (MainStatusLabel v).

Definition set_transactions_list_store (x : list Row) (v : View) : View :=
  mkView (AvailableBalanceAmountLabel v) (LockedBalanceAmountLabel v)
         (AddressTextBox v) x (MainStatusLabel v).

Definition set_MainStatusLabel (x : string) (v : View) : View :=
  mkView (AvailableBalanceAmountLabel v) (LockedBalanceAmountLabel v)
         (AddressTextBox v) (transactions_list_store v) x.

(** Reading a key of a response; a response without the key raises. *)
Definition key_availableBalance (r : Response) : Exn + Z :=
  match r with Balances a _ => inr a | _ => inl KeyError end.

Definition key_lockedAmount (r : Response) : Exn + Z :=
  match r with Balances _ l => inr l | _ => inl KeyError end.

Definition key_addresses (r : Response) : Exn + list string :=
  match r with Addresses l => inr l | _ => inl KeyError end.

Definition key_blockCount (r : Response) : Exn + Z :=
  match r with Status b _ => inr b | _ => inl KeyError end.

Definition key_peerCount (r : Response) : Exn + Z :=
  match r with Status _ p => inr p | _ => inl KeyError end.

Definition key_items (r : Response) : Exn + list Block :=
  match r with Transactions l => inr l | _ => inl KeyError end.

(** [addresses[0]] *)
Definition first_address (addresses : list string) : Exn + string :=
  match addresses with
  | [] => inl IndexError
  | a :: _ => inr a
  end.

(** The requests of a complete cycle. *)
Definition four_calls (blockCount : Z) (addresses : list string)
  : list Request :=
  [getBalance; getAddresses; getStatus;
   getTransactions blockCount 1 addresses].

(** ** The method *)

Section RefreshCycle.

(** The wallet service behind [global_variables.wallet_connection], with
    the clock: [request] answers a request ([None]: it raised) and moves
    the service on; [now_hms] is
    [datetime.now(tzlocal.get_localzone()).strftime("%H:%M:%S")];
    [strftime_local ts] is
    [datetime.fromtimestamp(ts, tzlocal.get_localzone()).strftime(...)],
    [None] where [fromtimestamp] raises.  The clock is read off the
    state that the last request left the world in: the model does not
    tell at which point between two requests it is read. *)
Variable World : Type.
Variable request : Request -> World -> option Response * World.
Variable now_hms : World -> string.
Variable strftime_local : Z -> option string.

(** The wallet service, the widgets and, as a ghost field, the requests
    issued so far. *)
Record State : Type := mkState
  { world : World;
    view : View;
    calls : list Request }.

Definition M (A : Type) : Type := State -> (Exn + A) * State.

Definition ret {A : Type} (a : A) : M A := fun s => (inr a, s).

Definition bind {A B : Type} (c : M A) (k : A -> M B) : M B :=
  fun s =>
    match c s with
    | (inl e, s') => (inl e, s')
    | (inr a, s') => k a s'
    end.

Definition lift {A : Type} (r : Exn + A) : M A := fun s => (r, s).

Definition widget (f : View -> View) : M unit :=
  fun s => (inr tt, mkState (world s) (f (view s)) (calls s)).

Definition wallet_request (r : Request) : M Response :=
  fun s =>
    let (answer, w) := request r (world s) in
    let s' := mkState w (view s) (calls s ++ [r]) in
    match answer with
    | Some response => (inr response, s')
    | None => (inl RPCFailure, s')
    end.

Definition now : M string := fun s => (inr (now_hms (world s)), s).

Fixpoint for_each {A : Type} (l : list A) (body : A -> M unit) : M unit :=
  match l with
  | [] => ret tt
  | x :: l' => bind (body x) (fun _ => for_each l' body)
  end.

Notation "x <- c ;; k" := (bind c (fun x => k))
  (at level 61, c at next level, right associativity).
Notation "c ;; k" := (bind c (fun _ => k))
  (at level 61, right associativity).

(** Lines 106-118: the row of one transaction; the elements of the list
    are evaluated in order, the address was found before. *)
Definition make_row (blockCount : Z) (transaction : RawTransaction)
  : Exn + Row :=
  let address :=
    find_address (desired_transfer_amount transaction)
                 (transfers transaction) in
  match Currency.format_currency (amount transaction) with
  | inl e => inl e
  | inr shown =>
      match strftime_local (timestamp transaction) with
      | None => inl TimestampError
      | Some time =>
          inr (mkRow (direction transaction)
                     (confirmed blockCount transaction)
                     shown time address)
      end
  end.

(** Lines 90-118: the body of the inner loop. *)
Definition append_transaction (blockCount : Z) (transaction : RawTransaction)
  : M unit :=
  row <- lift (make_row blockCount transaction) ;;
  widget (fun v =>
    set_transactions_list_store (transactions_list_store v ++ [row]) v).

(** Lines 88-118: the loop over the blocks. *)
Definition populate (blockCount : Z) (blocks : list Block) : M unit :=
  for_each (rev blocks) (fun block =>
    match transactions block with
    | [] => ret tt
    | _ :: _ => for_each (transactions block) (append_transaction blockCount)
    end).

(** Lines 66-120 *)
Definition refresh_values : M unit :=
  balances <- wallet_request getBalance ;;
  available <- lift (key_availableBalance balances) ;;
  shown <- lift (Currency.format_currency available) ;;
  widget (set_AvailableBalanceAmountLabel shown) ;;
  locked <- lift (key_lockedAmount balances) ;;
  shown <- lift (Currency.format_currency locked) ;;
  widget (set_LockedBalanceAmountLabel shown) ;;
  response <- wallet_request getAddresses ;;
  addresses <- lift (key_addresses response) ;;
  address <- lift (first_address addresses) ;;
  widget (set_AddressTextBox address) ;;
  status <- wallet_request getStatus ;;
  blockCount <- lift (key_blockCount status) ;;
  response <- wallet_request (getTransactions blockCount 1 addresses) ;;
  blocks <- lift (key_items response) ;;
  widget (set_transactions_list_store []) ;;
  populate blockCount blocks ;;
  peerCount <- lift (key_peerCount status) ;;
  time <- now ;;
  widget (set_MainStatusLabel (status_line blockCount peerCount time)).

(** What a cycle fetched: the four requests answered in turn, each by a
    response with the keys read from it. *)
Definition Fetched (w : World) (available locked : Z)
           (addresses : list string) (blockCount peerCount : Z)
           (items : list Block) (w' : World) : Prop :=
  exists w1 w2 w3,
    request getBalance w = (Some (Balances available locked), w1) /\
    request getAddresses w1 = (Some (Addresses addresses), w2) /\
    request getStatus w2 = (Some (Status blockCount peerCount), w3) /\
    request (getTransactions blockCount 1 addresses) w3
    = (Some (Transactions items), w').

(** The rows of a list of transactions, up to the first one whose row
    raises. *)
Fixpoint make_rows (blockCount : Z) (l : list RawTransaction)
  : list Row * option Exn :=
  match l with
  | [] => ([], None)
  | transaction :: l' =>
      match make_row blockCount transaction with
      | inl e => ([], Some e)
      | inr row =>
          let (rows, e) := make_rows blockCount l' in (row :: rows, e)
      end
  end.

(** The outcome of a loop whose first failure, if any, is [e]. *)
Definition outcome (e : option Exn) : Exn + unit :=
  match e with
  | None => inr tt
  | Some e => inl e
  end.

(** The state after the rows [rows] were appended to the list store. *)
Definition appended (rows : list Row) (s : State) : State :=
  mkState (world s)
          (set_transactions_list_store
             (transactions_list_store (view s) ++ rows) (view s))
          (calls s).

(** *** The ways of a cycle

    Every way a cycle can go, by the point where it stops: the state it
    leaves and what it raises.  [refresh_values_ways] below shows that
    [refresh_values] goes one of these ways from every state. *)

(** The widgets after the balance labels, the address and the rows were
    written. *)
Definition balances_shown (available locked : string) (v : View) : View :=
  set_LockedBalanceAmountLabel locked
    (set_AvailableBalanceAmountLabel available v).

Definition address_shown (available locked address : string) (v : View)
  : View :=
  set_AddressTextBox address (balances_shown available locked v).

Definition rows_shown (available locked address : string) (rows : list Row)
           (v : View) : View :=
  set_transactions_list_store rows
    (address_shown available locked address v).

Inductive Way (s : State) : (Exn + unit) * State -> Prop :=
| getBalance_raises w1 :
    request getBalance (world s) = (None, w1) ->
    Way s (inl RPCFailure, mkState w1 (view s) (calls s ++ [getBalance]))
| balances_malformed r w1 :
    request getBalance (world s) = (Some r, w1) ->
    key_availableBalance r = inl KeyError ->
    Way s (inl KeyError, mkState w1 (view s) (calls s ++ [getBalance]))
| available_overflows a l w1 :
    request getBalance (world s) = (Some (Balances a l), w1) ->
    Currency.format_currency a = inl OverflowError ->
    Way s (inl OverflowError, mkState w1 (view s) (calls s ++ [getBalance]))
| locked_overflows a l w1 sa :
    request getBalance (world s) = (Some (Balances a l), w1) ->
    Currency.format_currency a = inr sa ->
    Currency.format_currency l = inl OverflowError ->
    Way s (inl OverflowError,
           mkState w1 (set_AvailableBalanceAmountLabel sa (view s))
                   (calls s ++ [getBalance]))
| getAddresses_raises a l w1 sa sl w2 :
    request getBalance (world s) = (Some (Balances a l), w1) ->
    Currency.format_currency a = inr sa ->
    Currency.format_currency l = inr sl ->
    request getAddresses w1 = (None, w2) ->
    Way s (inl RPCFailure,
           mkState w2 (balances_shown sa sl (view s))
                   (calls s ++ [getBalance; getAddresses]))
| addresses_malformed a l w1 sa sl r w2 :
    request getBalance (world s) = (Some (Balances a l), w1) ->
    Currency.format_currency a = inr sa ->
    Currency.format_currency l = inr sl ->
    request getAddresses w1 = (Some r, w2) ->
    key_addresses r = inl KeyError ->
    Way s (inl KeyError,
           mkState w2 (balances_shown sa sl (view s))
                   (calls s ++ [getBalance; getAddresses]))
| no_address a l w1 sa sl w2 :
    request getBalance (world s) = (Some (Balances a l), w1) ->
    Currency.format_currency a = inr sa ->
    Currency.format_currency l = inr sl ->
    request getAddresses w1 = (Some (Addresses []), w2) ->
    Way s (inl IndexError,
           mkState w2 (balances_shown sa sl (view s))
                   (calls s ++ [getBalance; getAddresses]))
| getStatus_raises a l w1 sa sl address others w2 w3 :
    request getBalance (world s) = (Some (Balances a l), w1) ->
    Currency.format_currency a = inr sa ->
    Currency.format_currency l = inr sl ->
    request getAddresses w1 = (Some (Addresses (address :: others)), w2) ->
    request getStatus w2 = (None, w3) ->
    Way s (inl RPCFailure,
           mkState w3 (address_shown sa sl address (view s))
                   (calls s ++ [getBalance; getAddresses; getStatus]))
| status_malformed a l w1 sa sl address others w2 r w3 :
    request getBalance (world s) = (Some (Balances a l), w1) ->
    Currency.format_currency a = inr sa ->
    Currency.format_currency l = inr sl ->
    request getAddresses w1 = (Some (Addresses (address :: others)), w2) ->
    request getStatus w2 = (Some r, w3) ->
    key_blockCount r = inl KeyError ->
    Way s (inl KeyError,
           mkState w3 (address_shown sa sl address (view s))
                   (calls s ++ [getBalance; getAddresses; getStatus]))
| getTransactions_raises a l w1 sa sl address others w2 bc pc w3 w4 :
    request getBalance (world s) = (Some (Balances a l), w1) ->
    Currency.format_currency a = inr sa ->
    Currency.format_currency l = inr sl ->
    request getAddresses w1 = (Some (Addresses (address :: others)), w2) ->
    request getStatus w2 = (Some (Status bc pc), w3) ->
    request (getTransactions bc 1 (address :: others)) w3 = (None, w4) ->
    Way s (inl RPCFailure,
           mkState w4 (address_shown sa sl address (view s))
                   (calls s ++ four_calls bc (address :: others)))
| transactions_malformed a l w1 sa sl address others w2 bc pc w3 r w4 :
    request getBalance (world s) = (Some (Balances a l), w1) ->
    Currency.format_currency a = inr sa ->
    Currency.format_currency l = inr sl ->
    request getAddresses w1 = (Some (Addresses (address :: others)), w2) ->
    request getStatus w2 = (Some (Status bc pc), w3) ->
    request (getTransactions bc 1 (address :: others)) w3 = (Some r, w4) ->
    key_items r = inl KeyError ->
    Way s (inl KeyError,
           mkState w4 (address_shown sa sl address (view s))
                   (calls s ++ four_calls bc (address :: others)))
| row_raises a l w1 sa sl address others w2 bc pc w3 items w4 rows e :
    request getBalance (world s) = (Some (Balances a l), w1) ->
    Currency.format_currency a = inr sa ->
    Currency.format_currency l = inr sl ->
    request getAddresses w1 = (Some (Addresses (address :: others)), w2) ->
    request getStatus w2 = (Some (Status bc pc), w3) ->
    request (getTransactions bc 1 (address :: others)) w3
    = (Some (Transactions items), w4) ->
    make_rows bc (flat_map transactions (rev items)) = (rows, Some e) ->
    Way s (inl e,
           mkState w4 (rows_shown sa sl address rows (view s))
                   (calls s ++ four_calls bc (address :: others)))
| completes a l w1 sa sl address others w2 bc pc w3 items w4 rows :
    request getBalance (world s) = (Some (Balances a l), w1) ->
    Currency.format_currency a = inr sa ->
    Currency.format_currency l = inr sl ->
    request getAddresses w1 = (Some (Addresses (address :: others)), w2) ->
    request getStatus w2 = (Some (Status bc pc), w3) ->
    request (getTransactions bc 1 (address :: others)) w3
    = (Some (Transactions items), w4) ->
    make_rows bc (flat_map transactions (rev items)) = (rows, None) ->
    Way s (inr tt,
           mkState w4
                   (set_MainStatusLabel
                      (status_line bc pc (now_hms w4))
                      (rows_shown sa sl address rows (view s)))
                   (calls s ++ four_calls bc (address :: others))).

End RefreshCycle.

Arguments world {World} _.
Arguments view {World} _.
Arguments calls {World} _.
Arguments mkState {World} _ _ _.
Arguments appended {World} _ _.

(** ** Readings of the specification, to compare the method with *)

(** The number of records the specification counts: the transactions of
    the fetched blocks whose transfer list is not empty. *)
Definition with_transfers (blocks : list Block) : list RawTransaction :=
  filter (fun transaction =>
            match transfers transaction with [] => false | _ :: _ => true end)
         (flat_map transactions blocks).

(** ** A scripted wallet service

    A wallet service that answers the requests it receives from a script,
    one answer per request whatever the request, and raises once the
    script is exhausted; the clock and the time zone are fixed: the time
    zone is UTC, in which [fromtimestamp] raises outside the years 1 to
    9999, that is below -62135596800 and above 253402300799; the time is
    shown as the time stamp, not as a date. *)
Module Scripted.

Definition World : Type := list (option Response).

Definition request (_ : Request) (w : World) : option Response * World :=
  match w with
  | [] => (None, [])
  | answer :: w' => (answer, w')
  end.

Definition now_hms (_ : World) : string := "12:00:00".

Definition strftime_local (ts : Z) : option string :=
  if (ts <? -62135596800) || (253402300799 <? ts) then None
  else Some (String.append "t+" (str ts)).

Definition make_row := make_row strftime_local.
Definition refresh_values :=
  refresh_values World request now_hms strftime_local.

(** The window before the cycle. *)
Definition shown : View :=
  mkView "1.00" "2.00" "old address"
         [mkRow "In" true "3.00" "t+0" (Some "someone")]
         "old status".

Definition start (script : World) : State World := mkState script shown [].

(** amount -150, fee 10, transfers A:100 and B:160 *)
Definition sent_150 : RawTransaction :=
  mkTransaction (-150) 10 0 1500000000
                [mkTransfer "A" 100; mkTransfer "B" 160].

(** the same with B:140 *)
Definition sent_150' : RawTransaction :=
  mkTransaction (-150) 10 0 1500000000
                [mkTransfer "A" 100; mkTransfer "B" 140].

(** an incoming transaction without transfers *)
Definition bare : RawTransaction := mkTransaction 500 0 0 1500000000 [].

(** a block reward maturing at height 60, two transfers of its amount *)
Definition reward : RawTransaction :=
  mkTransaction 125000 0 60 1500000001
                [mkTransfer "X" 125000; mkTransfer "Y" 7;
                 mkTransfer "Z" 125000].

Definition B1 : Block := mkBlock [sent_150'; bare].
Definition B2 : Block := mkBlock [].
Definition B3 : Block := mkBlock [reward].

(** A service that answers all four requests. *)
Definition healthy : World :=
  [Some (Balances 125000 0); Some (Addresses ["mine"; "other"]);
   Some (Status 100 8); Some (Transactions [B1; B2; B3])].

(** A service that fails at the second request. *)
Definition fails_at_getAddresses : World := [Some (Balances 125000 0); None].

(** A wallet without addresses. *)
Definition no_address : World :=
  [Some (Balances 125000 0); Some (Addresses []);
   Some (Status 100 8); Some (Transactions [])].

(** A wallet whose only transaction has no transfers. *)
Definition one_bare : World :=
  [Some (Balances 0 0); Some (Addresses ["mine"]);
   Some (Status 100 8); Some (Transactions [mkBlock [bare]])].

End Scripted.

(** ** The other handlers *)

(** The window with the clipboard beside it. *)
Record Desktop : Type := mkDesktop
  { widgets : View;
    clipboard : string }.

(** Lines 26-29: the text of the address box goes to the clipboard. *)
Definition on_CopyButton_clicked (d : Desktop) : Desktop :=
  mkDesktop (widgets d) (AddressTextBox (widgets d)).

Section UpdateLoop.

Variable World : Type.
Variable request : Request -> World -> option Response * World.
Variable now_hms : World -> string.
Variable strftime_local : Z -> option string.

(** Lines 55-57: every turn of the loop hands one [refresh_values] to the
    main loop, which runs them one after the other; the loop runs in its
    own thread and what a cycle raises ends that cycle only.  The state
    after the cycles of the first [turns] turns. *)
Fixpoint update_loop (turns : nat) (s : State World) : State World :=
  match turns with
  | O => s
  | S n =>
      update_loop n (snd (refresh_values World request now_hms
                                         strftime_local s))
  end.

End UpdateLoop.

(** ** A wallet service that is down: every request raises. *)
Module Down.

Definition World : Type := unit.

Definition request (_ : Request) (w : World) : option Response * World :=
  (None, w).

Definition now_hms (_ : World) : string := "12:00:00".

Definition update_loop :=
  update_loop World request now_hms Scripted.strftime_local.

Definition start : State World := mkState tt Scripted.shown [].

End Down.

(** ** More scripts for the scripted wallet service *)
Module MoreScripts.

(** The window showing something else before the cycle. *)
Definition other_start (script : Scripted.World) : State Scripted.World :=
  mkState script
          (mkView "9.99" "8.88" "another address" [] "another status")
          [getStatus].

(** A transaction whose amount is too large for a float. *)
Definition too_much : RawTransaction :=
  mkTransaction (2 ^ 1024) 0 0 1500000002 [mkTransfer "W" 700].

(** The newest block first: [reward] is shown, then the row of
    [too_much] raises, and [bare] is not reached. *)
Definition stops_at_second_row : Scripted.World :=
  [Some (Balances 125000 0); Some (Addresses ["mine"]);
   Some (Status 100 8);
   Some (Transactions [mkBlock [Scripted.bare];
                       mkBlock [Scripted.reward; too_much]])].

(** Blocks without transactions. *)
Definition empty_blocks : Scripted.World :=
  [Some (Balances 125000 0); Some (Addresses ["mine"]);
   Some (Status 100 8);
   Some (Transactions [mkBlock []; mkBlock []])].

End MoreScripts.

(** ** The shape of a shown amount *)

(** What the round bit [r] and the sticky bit [s] of a mantissa shifted
    to the right say of the part [rho] shifted out, out of [den]. *)
Definition bits_of (den rho : Z) (r s : bool) : Prop :=
  match r, s with
  | false, false => rho = 0
  | false, true => 0 < 2 * rho < den
  | true, false => 2 * rho = den
  | true, true => den < 2 * rho
  end.

Definition is_digit (c : ascii) : Prop :=
  In c ["0"; "1"; "2"; "3"; "4"; "5"; "6"; "7"; "8"; "9"]%char.

(** Digits in groups of three counted from the right, a comma between
    two groups, one to three digits in the first group. *)
Inductive Grouped : list ascii -> Prop :=
| grouped_first ds :
    ds <> [] -> (List.length ds <= 3)%nat -> Forall is_digit ds ->
    Grouped ds
| grouped_next cs a b c :
    Grouped cs -> is_digit a -> is_digit b -> is_digit c ->
    Grouped (cs ++ [","%char; a; b; c]).

(** * Properties *)

(** ** Currency formatting

    The float of an integer of magnitude below 2^53 is the integer; its
    quotient by [100.] is within half a unit in the last place of the
    exact quotient; below 100 * 2^46 that is less than half a hundredth,
    so that the two decimals shown are the exact ones. *)

Module CurrencyFacts.
Import Currency.

(** The mantissa of [100.], 100 * 2^46. *)
Local Abbreviation D := 7036874417766400.

(** *** Integers *)

Lemma digits2_bounds (p : positive) :
  2 ^ (Zpos (digits2_pos p) - 1) <= Zpos p < 2 ^ Zpos (digits2_pos p).
Proof.
  induction p as [p IH|p IH|]; cbn [digits2_pos].
  - rewrite Pos2Z.inj_succ.
    replace (Z.succ (Zpos (digits2_pos p)) - 1) with
      (Z.succ (Zpos (digits2_pos p) - 1)) by lia.
    rewrite !Z.pow_succ_r by lia. lia.
  - rewrite Pos2Z.inj_succ.
    replace (Z.succ (Zpos (digits2_pos p)) - 1) with
      (Z.succ (Zpos (digits2_pos p) - 1)) by lia.
    rewrite !Z.pow_succ_r by lia. lia.
  - cbn. lia.
Qed.

Lemma digits2_unique (p : positive) (k : Z) :
  2 ^ (k - 1) <= Zpos p < 2 ^ k -> Zpos (digits2_pos p) = k.
Proof.
  intros [Hlo Hhi].
  pose proof (digits2_bounds p) as [Blo Bhi].
  assert (0 < k).
  { destruct (Z.ltb_spec 0 k); [assumption|].
    assert (2 ^ k <= 2 ^ 0) by (apply Z.pow_le_mono_r; lia).
    cbn in *. lia. }
  destruct (Z.lt_trichotomy (Zpos (digits2_pos p)) k) as [L|[E|G]];
    [|assumption|].
  - assert (2 ^ Zpos (digits2_pos p) <= 2 ^ (k - 1))
      by (apply Z.pow_le_mono_r; lia).
    lia.
  - assert (2 ^ k <= 2 ^ (Zpos (digits2_pos p) - 1))
      by (apply Z.pow_le_mono_r; lia).
    lia.
Qed.

Lemma iter_xO (p k : positive) :
  Zpos (Pos.iter xO p k) = Zpos p * 2 ^ Zpos k.
Proof.
  induction k as [|k IH] using Pos.peano_ind.
  - cbn. lia.
  - rewrite Pos.iter_succ, Pos2Z.inj_xO, IH, Pos2Z.inj_succ.
    rewrite Z.pow_succ_r by lia. lia.
Qed.

(** [num / den] rounded is the integer nearer than a half to it. *)
Lemma round_half_even_div_near (num den k : Z) :
  2 * Z.abs (num - k * den) < den -> round_half_even_div num den = k.
Proof.
  intros H. assert (0 < den) by lia.
  unfold round_half_even_div.
  pose proof (Z.div_mod num den ltac:(lia)) as E.
  pose proof (Z.mod_pos_bound num den ltac:(lia)) as B.
  assert (num / den = k \/ num / den = k - 1) as [Q|Q] by nia.
  - rewrite Q in *.
    destruct (Z.compare_spec (2 * (num mod den)) den); lia.
  - rewrite Q in *.
    destruct (Z.compare_spec (2 * (num mod den)) den); lia.
Qed.

Lemma hundredths_neg (m : positive) (e : Z) :
  e < 0 ->
  hundredths m e = round_half_even_div (Zpos m * 100) (2 ^ (- e)).
Proof.
  destruct e; try lia. reflexivity.
Qed.

Lemma fexp_normal (e : Z) : -1021 <= e -> fexp prec emax e = e - 53.
Proof. unfold fexp, emin, prec, emax. lia. Qed.

Lemma loc_of_record_of_loc (m : Z) (l : location) :
  loc_of_shr_record (shr_record_of_loc m l) = l.
Proof. now destruct l as [|[| |]]. Qed.

Lemma shr_m_record_of_loc (m : Z) (l : location) :
  shr_m (shr_record_of_loc m l) = m.
Proof. now destruct l as [|[| |]]. Qed.

(** No shift for a mantissa of 53 digits. *)
Lemma shr_fexp_53 (m : positive) (e : Z) (l : location) :
  Zpos (digits2_pos m) = 53 -> -1074 <= e ->
  shr_fexp prec emax (Zpos m) e l = (shr_record_of_loc (Zpos m) l, e).
Proof.
  intros Hd He. unfold shr_fexp. cbn [Zdigits2]. rewrite Hd.
  rewrite fexp_normal by lia.
  replace (53 + e - 53 - e) with 0 by lia. reflexivity.
Qed.

Lemma binary_round_aux_exact (s : bool) (m : positive) (e : Z) :
  Zpos (digits2_pos m) = 53 -> -1074 <= e <= 971 ->
  binary_round_aux prec emax s (Zpos m) e loc_Exact = S754_finite s m e.
Proof.
  intros Hd He. unfold binary_round_aux.
  rewrite shr_fexp_53 by (assumption || lia).
  cbn [shr_record_of_loc shr_m loc_of_shr_record round_nearest_even].
  rewrite shr_fexp_53 by (assumption || lia).
  cbn [shr_record_of_loc shr_m].
  replace (e <=? emax - prec) with true; [reflexivity|].
  symmetry. apply Z.leb_le. unfold emax, prec. lia.
Qed.

Lemma shr_fexp_54 (m : positive) (e : Z) (l : location) :
  Zpos (digits2_pos m) = 54 -> -1075 <= e ->
  shr_fexp prec emax (Zpos m) e l
  = (shr_1 (shr_record_of_loc (Zpos m) l), e + 1).
Proof.
  intros Hd He. unfold shr_fexp. cbn [Zdigits2]. rewrite Hd.
  rewrite fexp_normal by lia.
  replace (54 + e - 53 - e) with 1 by lia. reflexivity.
Qed.

(** The float of an integer below 2^53 is the integer. *)
Lemma binary_round_small (s : bool) (p : positive) :
  Zpos p < 2 ^ 53 ->
  exists mz ez,
    binary_round prec emax s p 0 = S754_finite s mz ez /\
    Zpos (digits2_pos mz) = 53 /\
    -52 <= ez <= 0 /\
    Zpos mz = Zpos p * 2 ^ (- ez).
Proof.
  intros Hp.
  pose proof (digits2_bounds p) as [Blo Bhi].
  set (d := Zpos (digits2_pos p)) in *.
  assert (Hd : 1 <= d <= 53).
  { split; [subst d; lia|].
    destruct (Z.leb_spec d 53); [assumption|].
    assert (2 ^ 53 <= 2 ^ (d - 1)) by (apply Z.pow_le_mono_r; lia). lia. }
  unfold binary_round. fold d.
  rewrite fexp_normal by lia. unfold shl_align.
  destruct (d + 0 - 53 - 0) as [|k|k] eqn:Ek; try lia.
  - exists p, 0. assert (d = 53) by lia.
    rewrite binary_round_aux_exact by (subst d; lia || assumption).
    repeat split; lia.
  - exists (Pos.iter xO p k), (d + 0 - 53).
    assert (Hk : Zpos k = 53 - d) by lia.
    assert (Hm : Zpos (Pos.iter xO p k) = Zpos p * 2 ^ (53 - d))
      by (rewrite iter_xO, Hk; reflexivity).
    assert (H52 : 2 ^ 52 = 2 ^ (d - 1) * 2 ^ (53 - d))
      by (rewrite <- Z.pow_add_r by lia; f_equal; lia).
    assert (H53 : 2 ^ 53 = 2 ^ d * 2 ^ (53 - d))
      by (rewrite <- Z.pow_add_r by lia; f_equal; lia).
    assert (Hpos : 0 < 2 ^ (53 - d)) by (apply Z.pow_pos_nonneg; lia).
    assert (Hdig : Zpos (digits2_pos (Pos.iter xO p k)) = 53).
    { apply digits2_unique. rewrite Hm.
      change (53 - 1) with 52. rewrite H52, H53. nia. }
    rewrite binary_round_aux_exact by (assumption || lia).
    repeat split; try lia.
    rewrite Hm. f_equal. f_equal. lia.
Qed.

(** The second rounding of [binary_round_aux]: a mantissa that the first
    rounding took to 2^53 is halved. *)
Lemma binary_round_aux_rounded (s : bool) (mx ex : Z) (lx : location)
      (mrs : shr_record) (e : Z) :
  shr_fexp prec emax mx ex lx = (mrs, e) ->
  let m1 := round_nearest_even (shr_m mrs) (loc_of_shr_record mrs) in
  2 ^ 52 <= m1 <= 2 ^ 53 -> -1074 <= e <= 970 ->
  binary_round_aux prec emax s mx ex lx
  = if m1 =? 2 ^ 53
    then S754_finite s 4503599627370496 (e + 1)
    else S754_finite s (Z.to_pos m1) e.
Proof.
  intros H m1 Hm He. unfold binary_round_aux. rewrite H. fold m1.
  destruct (Z.eqb_spec m1 (2 ^ 53)) as [E|E].
  - rewrite E. change (2 ^ 53) with (Zpos 9007199254740992).
    rewrite shr_fexp_54 by (reflexivity || lia).
    cbn [shr_record_of_loc shr_1 shr_m].
    replace (e + 1 <=? emax - prec) with true; [reflexivity|].
    symmetry. apply Z.leb_le. unfold emax, prec. lia.
  - destruct m1 as [|p|p] eqn:Em; try lia.
    assert (Zpos (digits2_pos p) = 53)
      by (apply digits2_unique; change (53 - 1) with 52; lia).
    rewrite shr_fexp_53 by (assumption || lia).
    cbn [shr_record_of_loc shr_m Z.to_pos].
    replace (e <=? emax - prec) with true; [reflexivity|].
    symmetry. apply Z.leb_le. unfold emax, prec. lia.
Qed.

Lemma new_location_D (r : Z) :
  new_location D r
  = if r =? 0 then loc_Exact else loc_Inexact (2 * r ?= D).
Proof. reflexivity. Qed.

Lemma shr_1_nonneg (m : Z) (r s : bool) :
  0 <= m ->
  shr_1 (Build_shr_record m r s)
  = Build_shr_record (Z.div2 m) (Z.odd m) (r || s).
Proof.
  intros H. destruct m as [|[p|p|]|p]; try lia; reflexivity.
Qed.

(** The quotient by [D] rounded where it stands. *)
Lemma round_quotient (q r N : Z) :
  N = D * q + r -> 0 <= r < D ->
  let m1 := round_nearest_even q (new_location D r) in
  2 * Z.abs (m1 * D - N) <= D /\ q <= m1 <= q + 1.
Proof.
  intros HN Hr. rewrite new_location_D.
  destruct (Z.eqb_spec r 0) as [E|E]; cbn [round_nearest_even].
  - lia.
  - destruct (Z.compare_spec (2 * r) D); cbn zeta;
      [destruct (Z.even q)|..]; lia.
Qed.

(** The quotient by [D] rounded after one shift to the right. *)
Lemma round_quotient_shifted (q r N : Z) :
  0 <= q -> N = D * q + r -> 0 <= r < D ->
  let mrs := shr_1 (shr_record_of_loc q (new_location D r)) in
  let m1 := round_nearest_even (shr_m mrs) (loc_of_shr_record mrs) in
  Z.abs (m1 * (2 * D) - N) <= D /\ Z.div2 q <= m1 <= Z.div2 q + 1.
Proof.
  intros Hq HN Hr. rewrite new_location_D.
  pose proof (Z.div2_odd q) as Hodd.
  destruct (Z.eqb_spec r 0) as [E|E].
  - cbn [shr_record_of_loc]. rewrite shr_1_nonneg by assumption.
    cbn [orb]. destruct (Z.odd q);
      cbn [shr_m loc_of_shr_record round_nearest_even Z.b2z] in *; cbn zeta.
    + destruct (Z.even (Z.div2 q)); lia.
    + lia.
  - destruct (Z.compare_spec (2 * r) D); cbn [shr_record_of_loc];
      rewrite shr_1_nonneg by assumption; cbn [orb];
      destruct (Z.odd q);
      cbn [shr_m loc_of_shr_record round_nearest_even Z.b2z] in *;
      cbn zeta; try lia.
Qed.

Lemma hundred_eq : hundred = S754_finite false 7036874417766400 (-46).
Proof. vm_compute. reflexivity. Qed.

(** The division by [100.] of a float of 53 digits between 1 and 2^53:
    the quotient has the exponent lowered by 7 or by 6, and a mantissa
    within half a unit of the exact one. *)
Lemma div_hundred (s : bool) (mz : positive) (ez : Z) :
  Zpos (digits2_pos mz) = 53 -> -52 <= ez <= 0 ->
  (ez = 0 -> Zpos mz < D) ->
  exists mf ef,
    SFdiv prec emax (S754_finite s mz ez) hundred = S754_finite s mf ef /\
    ((ef = ez - 7 /\ Z.abs (100 * Zpos mf - 128 * Zpos mz) <= 50) \/
     (ef = ez - 6 /\ Z.abs (100 * Zpos mf - 64 * Zpos mz) <= 50 /\
      (ez < 0 \/ Z.abs (100 * Zpos mf - 64 * Zpos mz) <= 25))).
Proof.
  intros Hd He Hsmall.
  pose proof (digits2_bounds mz) as Hmz. rewrite Hd in Hmz.
  change (53 - 1) with 52 in Hmz.
  change (2 ^ 52) with 4503599627370496 in Hmz.
  change (2 ^ 53) with 9007199254740992 in Hmz.
  rewrite hundred_eq. cbn [SFdiv]. rewrite xorb_false_r.
  unfold SFdiv_core_binary. cbn [Zdigits2]. rewrite Hd.
  change (Zpos (digits2_pos 7036874417766400)) with 53.
  rewrite fexp_normal by lia.
  replace (Z.min (53 + ez - (53 + -46) - 53) (ez - -46)) with (ez - 7) by lia.
  replace (ez - -46 - (ez - 7)) with 53 by lia.
  cbv iota. rewrite Z.shiftl_mul_pow2 by lia.
  change (2 ^ 53) with 9007199254740992.
  pose proof (Z_div_mod (Zpos mz * 9007199254740992) D eq_refl) as Hdiv.
  destruct (Z.div_eucl (Zpos mz * 9007199254740992) D) as [q r].
  destruct Hdiv as [HN Hr].
  assert (Hq : 4503599627370496 <= q < 18014398509481984) by lia.
  destruct q as [|q|q]; try lia.
  destruct (Z.ltb_spec (Zpos q) 9007199254740992) as [Hq53|Hq54].
  - (* a quotient of 53 digits *)
    assert (Hdq : Zpos (digits2_pos q) = 53)
      by (apply digits2_unique; change (53 - 1) with 52;
          change (2 ^ 52) with 4503599627370496;
          change (2 ^ 53) with 9007199254740992; lia).
    pose proof (round_quotient (Zpos q) r _ HN Hr) as Hm. cbn zeta in Hm.
    rewrite (binary_round_aux_rounded s _ _ _ _ _
               (shr_fexp_53 q (ez - 7) _ Hdq ltac:(lia)));
      rewrite ?shr_m_record_of_loc, ?loc_of_record_of_loc;
      change (2 ^ 52) with 4503599627370496;
      change (2 ^ 53) with 9007199254740992; try lia.
    set (m1 := round_nearest_even (Zpos q) (new_location D r)) in *.
    destruct (Z.eqb_spec m1 9007199254740992) as [E|E].
    + exists 4503599627370496%positive, (ez - 7 + 1).
      split; [reflexivity|]. right. lia.
    + exists (Z.to_pos m1), (ez - 7).
      split; [reflexivity|]. left.
      rewrite Z2Pos.id by lia. lia.
  - (* a quotient of 54 digits *)
    assert (Hdq : Zpos (digits2_pos q) = 54)
      by (apply digits2_unique; change (54 - 1) with 53;
          change (2 ^ 54) with 18014398509481984;
          change (2 ^ 53) with 9007199254740992; lia).
    pose proof (round_quotient_shifted (Zpos q) r _ ltac:(lia) HN Hr) as Hm.
    cbn zeta in Hm.
    pose proof (Z.div2_odd (Zpos q)) as Hodd.
    assert (Hb : 0 <= Z.b2z (Z.odd (Zpos q)) <= 1)
      by (destruct (Z.odd (Zpos q)); cbn; lia).
    rewrite (binary_round_aux_rounded s _ _ _ _ _
               (shr_fexp_54 q (ez - 7) _ Hdq ltac:(lia)));
      change (2 ^ 52) with 4503599627370496;
      change (2 ^ 53) with 9007199254740992; try lia.
    set (mrs := shr_1 (shr_record_of_loc (Zpos q) (new_location D r))) in *.
    set (m1 := round_nearest_even (shr_m mrs) (loc_of_shr_record mrs)) in *.
    destruct (Z.eqb_spec m1 9007199254740992) as [E|E]; [lia|].
    exists (Z.to_pos m1), (ez - 7 + 1).
    split; [reflexivity|]. right.
    rewrite Z2Pos.id by lia.
    split; [lia|]. split; [lia|]. left.
    destruct (Z.eq_dec ez 0) as [E0|E0]; [|lia].
    specialize (Hsmall E0). lia.
Qed.

(** What is shown for the integer of sign [s] and magnitude [p]. *)
Lemma format_2f_div_hundred (s : bool) (p : positive) :
  Zpos p < D ->
  exists f,
    binary_round prec emax s p 0 = f /\
    (forall s', f <> S754_infinity s') /\
    format_2f (SFdiv prec emax f hundred) = render s (Zpos p).
Proof.
  intros Hp.
  destruct (binary_round_small s p) as (mz & ez & Hf & Hd & He & Hm);
    [change (2 ^ 53) with 9007199254740992; lia|].
  exists (S754_finite s mz ez).
  split; [exact Hf|]. split; [discriminate|].
  destruct (div_hundred s mz ez Hd He) as (mf & ef & Hq & Hcases).
  { intros ->. cbn in Hm. lia. }
  rewrite Hq. cbn [format_2f]. f_equal.
  assert (Ht : 1 <= 2 ^ (- ez)) by (apply (Z.pow_le_mono_r 2 0); lia).
  assert (Ht' : ez < 0 -> 2 <= 2 ^ (- ez))
    by (intros; apply (Z.pow_le_mono_r 2 1); lia).
  rewrite hundredths_neg by lia.
  apply round_half_even_div_near.
  destruct Hcases as [[-> Hnear]|[-> [Hnear Hnearer]]].
  - replace (- (ez - 7)) with (7 + - ez) by lia.
    rewrite Z.pow_add_r by lia. change (2 ^ 7) with 128.
    replace (Zpos p * (128 * 2 ^ (- ez))) with (128 * Zpos mz)
      by (rewrite Hm; ring).
    lia.
  - replace (- (ez - 6)) with (6 + - ez) by lia.
    rewrite Z.pow_add_r by lia. change (2 ^ 6) with 64.
    replace (Zpos p * (64 * 2 ^ (- ez))) with (64 * Zpos mz)
      by (rewrite Hm; ring).
    destruct Hnearer as [Hneg|Hnearer]; [specialize (Ht' Hneg)|]; lia.
Qed.

(** Below 100 * 2^46 what is shown is exact. *)
Lemma format_currency_below (x : Z) :
  Z.abs x < D -> format_currency x = inr (exact_currency x).
Proof.
  intros Hx. unfold format_currency, float_of_int.
  destruct x as [|p|p].
  - vm_compute. reflexivity.
  - cbn [binary_normalize].
    destruct (format_2f_div_hundred false p Hx) as (f & -> & Hfin & Hshown).
    change (exact_currency (Zpos p)) with (render false (Zpos p)).
    rewrite <- Hshown.
    destruct f; try reflexivity. now destruct (Hfin s).
  - cbn [binary_normalize].
    destruct (format_2f_div_hundred true p Hx) as (f & -> & Hfin & Hshown).
    change (exact_currency (Zneg p)) with (render true (Zpos p)).
    rewrite <- Hshown.
    destruct f; try reflexivity. now destruct (Hfin s).
Qed.

End CurrencyFacts.

(** ** The counterparty address *)

Section FindAddress.

Variable desired : Z.

Let step (address : option string) (transfer : Transfer) : option string :=
  if transfer_amount transfer =? desired
  then Some (transfer_address transfer)
  else address.

Let differs (transfer : Transfer) : Prop :=
  transfer_amount transfer <> desired.

Lemma scan_no_match (ts : list Transfer) (address : option string) :
  Forall differs ts -> fold_left step ts address = address.
Proof.
  intros H; revert address.
  induction H as [|t ts Ht _ IH]; intros address; simpl; [reflexivity|].
  rewrite IH. unfold step.
  destruct (Z.eqb_spec (transfer_amount t) desired) as [E|E];
    [contradiction|reflexivity].
Qed.

Lemma scan_match (before after : list Transfer) (t : Transfer)
      (address : option string) :
  transfer_amount t = desired ->
  Forall differs after ->
  fold_left step (before ++ t :: after) address
  = Some (transfer_address t).
Proof.
  intros Ht Hafter.
  rewrite fold_left_app. simpl.
  rewrite scan_no_match by assumption.
  unfold step. now rewrite Ht, Z.eqb_refl.
Qed.

(** The scan either met no transfer of the desired amount and kept the
    address it started with, or ends on the address of the last one. *)
Lemma scan_cases (ts : list Transfer) (address : option string) :
  (Forall differs ts /\ fold_left step ts address = address) \/
  (exists before t after,
      ts = before ++ t :: after /\
      transfer_amount t = desired /\
      Forall differs after /\
      fold_left step ts address = Some (transfer_address t)).
Proof.
  induction ts as [|t ts IH] using rev_ind.
  - left. split; [constructor|reflexivity].
  - rewrite fold_left_app. simpl.
    destruct (Z.eq_dec (transfer_amount t) desired) as [E|E].
    + right. exists ts, t, []. repeat split; auto.
      unfold step. now rewrite E, Z.eqb_refl.
    + assert (Hstep : forall a, step a t = a).
      { intros a. unfold step.
        destruct (Z.eqb_spec (transfer_amount t) desired);
          [contradiction|reflexivity]. }
      rewrite Hstep.
      destruct IH
        as [[Hall Hres]|(before & t' & after & -> & Ht' & Hafter & Hres)].
      * left. split; [|assumption].
        apply Forall_app. split; [assumption|]. repeat constructor. exact E.
      * right. exists before, t', (after ++ [t]).
        rewrite <- app_assoc. repeat split; auto.
        apply Forall_app. split; [assumption|]. repeat constructor. exact E.
Qed.

End FindAddress.

Lemma find_address_unfold (desired : Z) (ts : list Transfer) :
  find_address desired ts
  = fold_left (fun address transfer =>
                 if transfer_amount transfer =? desired
                 then Some (transfer_address transfer)
                 else address) ts None.
Proof. reflexivity. Qed.

(** ** The row of one transaction *)

Section RowProperties.

Variable strftime_local : Z -> option string.

Lemma make_row_inr (blockCount : Z) (transaction : RawTransaction)
      (row : Row) :
  make_row strftime_local blockCount transaction = inr row ->
  exists shown time,
    Currency.format_currency (amount transaction) = inr shown /\
    strftime_local (timestamp transaction) = Some time /\
    row = mkRow (direction transaction) (confirmed blockCount transaction)
                shown time
                (find_address (desired_transfer_amount transaction)
                              (transfers transaction)).
Proof.
  unfold make_row.
  destruct (Currency.format_currency (amount transaction)) as [e|shown];
    [discriminate|].
  destruct (strftime_local (timestamp transaction)) as [time|];
    [|discriminate].
  intros [= <-]. now exists shown, time.
Qed.

(** C3: the confirmed flag of the row of a transaction is true exactly
    when its unlock time is 0 or at most the block count minus 40; a
    non-zero unlock time equal to the block count minus 40 is confirmed,
    one equal to the block count minus 39 is not. *)
Theorem confirmed_flag (blockCount : Z) (transaction : RawTransaction)
        (row : Row) :
  make_row strftime_local blockCount transaction = inr row ->
  (row_confirmed row = true <->
   unlockTime transaction = 0 \/ unlockTime transaction <= blockCount - 40)
  /\ (unlockTime transaction <> 0 ->
      unlockTime transaction = blockCount - 40 -> row_confirmed row = true)
  /\ (unlockTime transaction <> 0 ->
      unlockTime transaction = blockCount - 39 -> row_confirmed row = false).
Proof.
  intros H. apply make_row_inr in H as (shown & time & _ & _ & ->).
  cbn [row_confirmed]. unfold confirmed.
  split; [|split].
  - rewrite orb_true_iff, Z.eqb_eq, Z.leb_le. tauto.
  - intros Hnz Hu. apply orb_true_iff. right. apply Z.leb_le. lia.
  - intros Hnz Hu. apply orb_false_iff.
    split; [apply Z.eqb_neq; exact Hnz|]. apply Z.leb_gt. lia.
Qed.

(** C8: the direction of the row of a transaction is "In" when its
    amount is positive and "Out" otherwise, zero included. *)
Theorem direction_in_out (blockCount : Z) (transaction : RawTransaction)
        (row : Row) :
  make_row strftime_local blockCount transaction = inr row ->
  (0 < amount transaction -> row_direction row = "In") /\
  (amount transaction <= 0 -> row_direction row = "Out").
Proof.
  intros H. apply make_row_inr in H as (shown & time & _ & _ & ->).
  cbn [row_direction]. unfold direction.
  destruct (Z.gtb_spec (amount transaction) 0); split; intros; trivial; lia.
Qed.

(** C5: the address found for a transfer list is the address of the last
    transfer of the desired amount, whatever stands before it; it is
    absent exactly when no transfer has the desired amount, and the row
    of the transaction is then made all the same, with no address. *)
Theorem find_address_last (desired : Z) (ts : list Transfer) :
  (forall a,
      find_address desired ts = Some a <->
      exists before t after,
        ts = before ++ t :: after /\
        transfer_amount t = desired /\
        transfer_address t = a /\
        Forall (fun t' => transfer_amount t' <> desired) after)
  /\ (find_address desired ts = None <->
      Forall (fun t' => transfer_amount t' <> desired) ts)
  /\ (forall blockCount transaction shown time,
        ts = transfers transaction ->
        desired = desired_transfer_amount transaction ->
        Forall (fun t' => transfer_amount t' <> desired) ts ->
        Currency.format_currency (amount transaction) = inr shown ->
        strftime_local (timestamp transaction) = Some time ->
        make_row strftime_local blockCount transaction
        = inr (mkRow (direction transaction)
                     (confirmed blockCount transaction) shown time None)).
Proof.
  rewrite find_address_unfold.
  assert (Hnone : Forall (fun t' => transfer_amount t' <> desired) ts ->
                  find_address desired ts = None)
    by (intros H; rewrite find_address_unfold; now apply scan_no_match).
  split; [|split].
  - intros a. split.
    + intros H.
      destruct (scan_cases desired ts None)
        as [[_ E]|(before & t & after & E1 & E2 & E3 & E4)].
      * rewrite E in H. discriminate.
      * rewrite E4 in H. injection H as H.
        now exists before, t, after.
    + intros (before & t & after & -> & Ht & <- & Hafter).
      now apply scan_match.
  - split.
    + intros H.
      destruct (scan_cases desired ts None)
        as [[Hall _]|(before & t & after & _ & _ & _ & E)];
        [assumption|].
      rewrite E in H. discriminate.
    + intros H. now apply scan_no_match.
  - intros blockCount transaction shown time -> -> Hall Hshown Htime.
    unfold make_row. rewrite Hshown, Htime, (Hnone Hall). reflexivity.
Qed.

End RowProperties.

(** C4, as the method has it: the desired transfer amount is
    [-(amount + fee)] for a negative amount and the amount otherwise; for
    amount -150 and fee 10 it is 140, which finds B among the transfers
    A:100, B:140 and nobody among A:100, B:160. *)
Theorem desired_transfer_amount_cases (transaction : RawTransaction) :
  (amount transaction < 0 ->
   desired_transfer_amount transaction
   = - (amount transaction + fee transaction))
  /\ (0 <= amount transaction ->
      desired_transfer_amount transaction = amount transaction)
  /\ (amount transaction = -150 -> fee transaction = 10 ->
      desired_transfer_amount transaction = 140
      /\ find_address (desired_transfer_amount transaction)
                      [mkTransfer "A" 100; mkTransfer "B" 140] = Some "B"
      /\ find_address (desired_transfer_amount transaction)
                      [mkTransfer "A" 100; mkTransfer "B" 160] = None).
Proof.
  unfold desired_transfer_amount.
  split; [|split].
  - intros H. destruct (Z.ltb_spec (amount transaction) 0); lia.
  - intros H. destruct (Z.ltb_spec (amount transaction) 0); lia.
  - intros -> ->. cbn. repeat split; reflexivity.
Qed.

(** C4, the example as the claim has it, fails: amount -150 and fee 10
    give 140, not 160, and no transfer of A:100, B:160 has that amount. *)
Lemma desired_transfer_amount_not_160 :
  amount Scripted.sent_150 = -150 /\
  fee Scripted.sent_150 = 10 /\
  transfers Scripted.sent_150 = [mkTransfer "A" 100; mkTransfer "B" 160] /\
  desired_transfer_amount Scripted.sent_150 <> 160 /\
  find_address (desired_transfer_amount Scripted.sent_150)
               (transfers Scripted.sent_150) <> Some "B".
Proof.
  cbn. repeat split; discriminate.
Qed.

(** The confirmed flag of a row, run: a reward maturing at height 60 is
    confirmed at block count 100. *)
Lemma confirmed_flag_witness :
  exists row,
    Scripted.make_row 100 Scripted.reward = inr row /\
    (row_confirmed row = true <->
     unlockTime Scripted.reward = 0 \/ unlockTime Scripted.reward <= 100 - 40).
Proof.
  exists (mkRow "In" true "1,250.00" "t+1500000001" (Some "Z")).
  assert (H : Scripted.make_row 100 Scripted.reward
              = inr (mkRow "In" true "1,250.00" "t+1500000001" (Some "Z")))
    by (vm_compute; reflexivity).
  split; [exact H|].
  exact (proj1 (confirmed_flag Scripted.strftime_local 100
                               Scripted.reward _ H)).
Defined.

(** The direction of a row, run: an amount of -150 is shown as "Out". *)
Lemma direction_in_out_witness :
  exists row,
    Scripted.make_row 100 Scripted.sent_150 = inr row /\
    (amount Scripted.sent_150 <= 0 -> row_direction row = "Out").
Proof.
  exists (mkRow "Out" true "-1.50" "t+1500000000" None).
  assert (H : Scripted.make_row 100 Scripted.sent_150
              = inr (mkRow "Out" true "-1.50" "t+1500000000" None))
    by (vm_compute; reflexivity).
  split; [exact H|].
  exact (proj2 (direction_in_out Scripted.strftime_local 100
                                 Scripted.sent_150 _ H)).
Defined.

(** The desired transfer amount, run: amount -150, fee 10, B:140. *)
Lemma desired_transfer_amount_cases_witness :
  desired_transfer_amount Scripted.sent_150' = 140 /\
  find_address (desired_transfer_amount Scripted.sent_150')
               [mkTransfer "A" 100; mkTransfer "B" 140] = Some "B".
Proof.
  destruct (desired_transfer_amount_cases Scripted.sent_150') as (_ & _ & H).
  destruct (H eq_refl eq_refl) as (H1 & H2 & _).
  split; assumption.
Defined.

(** The last match, run: of the transfers X:125000, Y:7, Z:125000 it is
    Z that is found for 125000. *)
Lemma find_address_last_witness :
  find_address 125000 (transfers Scripted.reward) = Some "Z".
Proof.
  apply (proj1 (find_address_last Scripted.strftime_local 125000
                                  (transfers Scripted.reward))).
  exists [mkTransfer "X" 125000; mkTransfer "Y" 7], (mkTransfer "Z" 125000), [].
  repeat split. constructor.
Defined.

(** ** The loop over the blocks *)

Lemma store_same (v : View) :
  set_transactions_list_store (transactions_list_store v) v = v.
Proof. now destruct v. Qed.

Section LoopProperties.

Variable World : Type.
Variable strftime_local : Z -> option string.

Local Abbreviation make_row' := (make_row strftime_local).
Local Abbreviation make_rows' := (make_rows strftime_local).
Local Abbreviation append_transaction' :=
  (append_transaction World strftime_local).
Local Abbreviation populate' := (populate World strftime_local).

Lemma appended_nil (s : State World) : appended [] s = s.
Proof.
  destruct s as [w v c]. unfold appended. cbn.
  now rewrite app_nil_r, store_same.
Qed.

Lemma appended_app (rows rows' : list Row) (s : State World) :
  appended rows' (appended rows s) = appended (rows ++ rows') s.
Proof.
  unfold appended. cbn. now rewrite app_assoc.
Qed.

Lemma make_rows_app (blockCount : Z) (l l' : list RawTransaction) :
  make_rows' blockCount (l ++ l')
  = match make_rows' blockCount l with
    | (rows, Some e) => (rows, Some e)
    | (rows, None) =>
        let (rows', e) := make_rows' blockCount l' in (rows ++ rows', e)
    end.
Proof.
  induction l as [|t l IH]; cbn.
  - now destruct (make_rows' blockCount l').
  - destruct (make_row' blockCount t) as [e|row]; [reflexivity|].
    rewrite IH.
    destruct (make_rows' blockCount l) as [rows [e|]]; [reflexivity|].
    now destruct (make_rows' blockCount l').
Qed.

(** The inner loop appends the rows of the transactions in their order,
    up to the first row that raises. *)
Lemma inner_loop (blockCount : Z) (l : list RawTransaction)
      (s : State World) :
  for_each World l (append_transaction' blockCount) s
  = (outcome (snd (make_rows' blockCount l)),
     appended (fst (make_rows' blockCount l)) s).
Proof.
  revert s. induction l as [|t l IH]; intros s; cbn.
  - now rewrite appended_nil.
  - unfold bind, append_transaction, lift at 1. cbn. unfold bind, lift, widget.
    destruct (make_row' blockCount t) as [e|row]; cbn.
    + now rewrite appended_nil.
    + rewrite IH.
      destruct (make_rows' blockCount l) as [rows e]. cbn.
      f_equal. unfold appended. cbn. now rewrite <- app_assoc.
Qed.

(** The loops together, over any list of blocks taken in its order. *)
Lemma outer_loop (blockCount : Z) (blocks : list Block) (s : State World) :
  for_each World blocks
    (fun block =>
       match transactions block with
       | [] => ret World tt
       | _ :: _ =>
           for_each World (transactions block)
                    (append_transaction' blockCount)
       end) s
  = (outcome (snd (make_rows' blockCount (flat_map transactions blocks))),
     appended (fst (make_rows' blockCount (flat_map transactions blocks))) s).
Proof.
  revert s. induction blocks as [|b blocks IH]; intros s.
  - cbn. now rewrite appended_nil.
  - cbn [for_each flat_map]. unfold bind at 1.
    rewrite make_rows_app.
    assert (E : match transactions b with
                | [] => ret World tt
                | _ :: _ =>
                    for_each World (transactions b)
                             (append_transaction' blockCount)
                end s
                = (outcome (snd (make_rows' blockCount (transactions b))),
                   appended (fst (make_rows' blockCount (transactions b))) s)).
    { destruct (transactions b) as [|t l] eqn:Eb.
      - cbn. now rewrite appended_nil.
      - apply inner_loop. }
    rewrite E. clear E.
    destruct (make_rows' blockCount (transactions b)) as [rows [e|]]; cbn.
    + reflexivity.
    + rewrite IH.
      destruct (make_rows' blockCount (flat_map transactions blocks))
        as [rows' e']. cbn.
      now rewrite appended_app.
Qed.

(** Lines 88-118: newest block first. *)
Lemma populate_rows (blockCount : Z) (blocks : list Block)
      (s : State World) :
  populate' blockCount blocks s
  = (outcome (snd (make_rows' blockCount
                             (flat_map transactions (rev blocks)))),
     appended (fst (make_rows' blockCount
                              (flat_map transactions (rev blocks)))) s).
Proof. apply outer_loop. Qed.

(** The rows made without a failure are the rows of the transactions, one
    each, in their order. *)
Lemma make_rows_all (blockCount : Z) (l : list RawTransaction)
      (rows : list Row) :
  make_rows' blockCount l = (rows, None) <->
  Forall2 (fun transaction row => make_row' blockCount transaction = inr row)
          l rows.
Proof.
  revert rows. induction l as [|t l IH]; intros rows; cbn.
  - split.
    + intros [= <-]. constructor.
    + intros H. inversion H. reflexivity.
  - split.
    + destruct (make_row' blockCount t) as [e|row] eqn:Et; [discriminate|].
      destruct (make_rows' blockCount l) as [rows' e] eqn:El.
      intros [= <- ->]. constructor; [assumption|]. now apply IH.
    + intros H. inversion H as [|? row ? rows' Ht Hl]; subst.
      rewrite Ht. apply IH in Hl. now rewrite Hl.
Qed.

(** A row never fails the way a request does. *)
Lemma make_row_error (blockCount : Z) (t : RawTransaction) (e : Exn) :
  make_row' blockCount t = inl e -> e = OverflowError \/ e = TimestampError.
Proof.
  unfold make_row, Currency.format_currency.
  destruct (Currency.float_of_int (amount t)).
  - destruct (strftime_local (timestamp t)); [discriminate|].
    intros [= <-]. now right.
  - intros [= <-]. now left.
Qed.

Lemma make_rows_error (blockCount : Z) (l : list RawTransaction) (e : Exn) :
  snd (make_rows' blockCount l) = Some e ->
  e = OverflowError \/ e = TimestampError.
Proof.
  induction l as [|t l IH]; cbn; [discriminate|].
  destruct (make_row' blockCount t) as [e'|row] eqn:Et.
  - intros [= <-]. eapply make_row_error, Et.
  - destruct (make_rows' blockCount l) as [rows e']. exact IH.
Qed.

Lemma make_rows_length (blockCount : Z) (l : list RawTransaction)
      (rows : list Row) :
  make_rows' blockCount l = (rows, None) -> List.length rows = List.length l.
Proof.
  intros H. apply make_rows_all in H.
  symmetry. eapply Forall2_length, H.
Qed.

End LoopProperties.

(** ** The cycle *)

Section CycleProperties.

Variable World : Type.
Variable request : Request -> World -> option Response * World.
Variable now_hms : World -> string.
Variable strftime_local : Z -> option string.

Local Abbreviation refresh_values' :=
  (refresh_values World request now_hms strftime_local).
Local Abbreviation Way' := (Way World request now_hms strftime_local).
Local Abbreviation Fetched' := (Fetched World request).

Lemma format_currency_error (x : Z) (e : Exn) :
  Currency.format_currency x = inl e -> e = OverflowError.
Proof.
  unfold Currency.format_currency.
  destruct (Currency.float_of_int x); congruence.
Qed.

(** One step of the method: what stands first in a sequence. *)
Ltac first_request :=
  unfold bind at 1, wallet_request at 1; cbn [world view calls];
  rewrite <- ?app_assoc; cbn [app].
Ltac first_lift := unfold bind at 1, lift at 1.
Ltac first_widget := unfold bind at 1, widget at 1; cbn [world view calls].

(** From every state the method goes one of the ways of a cycle. *)
Lemma refresh_values_ways (s : State World) : Way' s (refresh_values' s).
Proof.
  unfold refresh_values.
  first_request.
  destruct (request getBalance (world s)) as [[r1|] w1] eqn:E1;
    [|now apply getBalance_raises].
  first_lift.
  destruct r1 as [a l| | |];
    try (eapply balances_malformed; [exact E1|reflexivity]).
  cbn [key_availableBalance]. first_lift.
  destruct (Currency.format_currency a) as [e|sa] eqn:Fa.
  { pose proof (format_currency_error _ _ Fa) as ->.
    eapply available_overflows; eassumption. }
  first_widget. first_lift. cbn [key_lockedAmount]. first_lift.
  destruct (Currency.format_currency l) as [e|sl] eqn:Fl.
  { pose proof (format_currency_error _ _ Fl) as ->.
    eapply locked_overflows; eassumption. }
  first_widget. first_request.
  destruct (request getAddresses w1) as [[r2|] w2] eqn:E2;
    [|eapply getAddresses_raises; eassumption].
  first_lift.
  destruct r2 as [| addresses | |];
    try (eapply addresses_malformed; [eassumption..|reflexivity]).
  cbn [key_addresses]. first_lift.
  destruct addresses as [|address others];
    [eapply no_address; eassumption|].
  cbn [first_address]. first_widget. first_request.
  destruct (request getStatus w2) as [[r3|] w3] eqn:E3;
    [|eapply getStatus_raises; eassumption].
  first_lift.
  destruct r3 as [| | bc pc |];
    try (eapply status_malformed; [eassumption..|reflexivity]).
  cbn [key_blockCount]. first_request.
  destruct (request (getTransactions bc 1 (address :: others)) w3)
    as [[r4|] w4] eqn:E4;
    [|eapply getTransactions_raises; eassumption].
  first_lift.
  destruct r4 as [| | | items];
    try (eapply transactions_malformed; [eassumption..|reflexivity]).
  cbn [key_items]. first_widget.
  unfold bind at 1. rewrite populate_rows.
  destruct (make_rows strftime_local bc (flat_map transactions (rev items)))
    as [rows [e|]] eqn:Er; cbn [fst snd outcome].
  - unfold appended. cbn [world view calls].
    eapply row_raises; eassumption.
  - first_lift. cbn [key_peerCount].
    unfold bind, now, widget, appended. cbn [world view calls].
    eapply completes; eassumption.
Qed.

(** What a cycle leaves when it does not complete, and what when it does. *)
Lemma refresh_values_inv (s : State World) (r : (Exn + unit) * State World) :
  refresh_values' s = r -> Way' s r.
Proof. intros <-. apply refresh_values_ways. Qed.

(** C1, as the method has it: a cycle in which a request raises leaves
    the transaction list and the status line as they were; the balance
    labels are as they were only when it was [getBalance] that raised,
    and the address text only when it was [getBalance] or [getAddresses];
    after that, they show what the answered requests returned. *)
Theorem rpc_failure_leaves (s s' : State World) :
  refresh_values' s = (inl RPCFailure, s') ->
  transactions_list_store (view s') = transactions_list_store (view s) /\
  MainStatusLabel (view s') = MainStatusLabel (view s) /\
  ((calls s' = calls s ++ [getBalance] /\ view s' = view s) \/
   (exists a l w1 sa sl,
       request getBalance (world s) = (Some (Balances a l), w1) /\
       Currency.format_currency a = inr sa /\
       Currency.format_currency l = inr sl /\
       ((calls s' = calls s ++ [getBalance; getAddresses] /\
         view s' = balances_shown sa sl (view s)) \/
        (exists address others w2,
            request getAddresses w1
            = (Some (Addresses (address :: others)), w2) /\
            (calls s' = calls s ++ [getBalance; getAddresses; getStatus] \/
             exists bc, calls s' = calls s ++ four_calls bc (address :: others))
            /\ view s' = address_shown sa sl address (view s))))).
Proof.
  intros H. apply refresh_values_inv in H.
  inversion H; subst; cbn [view calls].
  - repeat split. now left.
  - repeat split. right. exists a, l, w1, sa, sl. repeat split; auto.
  - repeat split. right. exists a, l, w1, sa, sl. repeat split; auto.
    right. exists address, others, w2. repeat split; auto.
  - repeat split. right. exists a, l, w1, sa, sl. repeat split; auto.
    right. exists address, others, w2. repeat split; eauto.
  - exfalso.
    match goal with
    | E : make_rows _ _ ?txs = (_, Some RPCFailure) |- _ =>
        pose proof (make_rows_error strftime_local bc txs RPCFailure) as X;
        rewrite E in X; destruct (X eq_refl); discriminate
    end.
Qed.


(** A cycle that completes has fetched from the four requests and shows
    the balances fetched and the rows of all the fetched transactions,
    newest block first. *)
Lemma refresh_values_completes (s s' : State World) :
  refresh_values' s = (inr tt, s') ->
  exists a l addresses bc pc items,
    Fetched' (world s) a l addresses bc pc items (world s') /\
    make_rows strftime_local bc (flat_map transactions (rev items))
    = (transactions_list_store (view s'), None) /\
    calls s' = calls s ++ four_calls bc addresses /\
    Currency.format_currency a
    = inr (AvailableBalanceAmountLabel (view s')) /\
    Currency.format_currency l = inr (LockedBalanceAmountLabel (view s')).
Proof.
  intros H. apply refresh_values_inv in H.
  inversion H; subst; cbn [world view calls].
  exists a, l, (address :: others), bc, pc, items.
  repeat split; auto.
  now exists w1, w2, w3.
Qed.

Lemma length_flat_map_transactions (blocks : list Block) :
  List.length (flat_map transactions blocks)
  = list_sum (map (fun block => List.length (transactions block)) blocks).
Proof.
  induction blocks as [|b blocks IH]; cbn; [reflexivity|].
  now rewrite length_app, IH.
Qed.

Lemma length_flat_map_rev (blocks : list Block) :
  List.length (flat_map transactions (rev blocks))
  = List.length (flat_map transactions blocks).
Proof.
  induction blocks as [|b blocks IH]; cbn; [reflexivity|].
  rewrite flat_map_app, !length_app, IH. cbn. rewrite app_nil_r. lia.
Qed.

(** C2, as the method has it: the list store of a completed cycle holds
    one row for every transaction of the fetched blocks, with or without
    transfers. *)
Theorem rows_count (s s' : State World) :
  refresh_values' s = (inr tt, s') ->
  exists a l addresses bc pc items,
    Fetched' (world s) a l addresses bc pc items (world s') /\
    List.length (transactions_list_store (view s'))
    = list_sum (map (fun block => List.length (transactions block)) items).
Proof.
  intros H.
  apply refresh_values_completes
    in H as (a & l & addresses & bc & pc & items & HF & Hrows & _).
  exists a, l, addresses, bc, pc, items. split; [assumption|].
  apply make_rows_length in Hrows.
  now rewrite Hrows, length_flat_map_rev, length_flat_map_transactions.
Qed.

(** C6: the rows of a completed cycle are the rows of the transactions of
    the fetched blocks, the blocks taken last to first and the
    transactions of a block in their order; of three blocks, the rows of
    the third come first, then those of the second, then those of the
    first. *)
Theorem rows_order (s s' : State World) :
  refresh_values' s = (inr tt, s') ->
  exists a l addresses bc pc items,
    Fetched' (world s) a l addresses bc pc items (world s') /\
    let made transaction row :=
      make_row strftime_local bc transaction = inr row in
    Forall2 made (flat_map transactions (rev items))
            (transactions_list_store (view s')) /\
    (forall B1 B2 B3,
        items = [B1; B2; B3] ->
        exists rows3 rows2 rows1,
          transactions_list_store (view s') = rows3 ++ rows2 ++ rows1 /\
          Forall2 made (transactions B3) rows3 /\
          Forall2 made (transactions B2) rows2 /\
          Forall2 made (transactions B1) rows1).
Proof.
  intros H.
  apply refresh_values_completes
    in H as (a & l & addresses & bc & pc & items & HF & Hrows & _).
  exists a, l, addresses, bc, pc, items. split; [assumption|].
  apply make_rows_all in Hrows. cbn zeta. split; [assumption|].
  intros B1 B2 B3 ->. cbn in Hrows. rewrite app_nil_r in Hrows.
  apply Forall2_app_inv_l in Hrows as (rows3 & rest & H3 & Hrest & ->).
  apply Forall2_app_inv_l in Hrest as (rows2 & rows1 & H2 & H1 & ->).
  now exists rows3, rows2, rows1.
Qed.

(** The wallet service answers a request from a state in one way. *)
Ltac same_answers :=
  repeat match goal with
         | H1 : request ?r ?w = _, H2 : request ?r ?w = _ |- _ =>
             rewrite H1 in H2;
             (discriminate H2 || (injection H2; intros; subst; clear H2))
         end.

(** A cycle completes whenever the four requests are answered, there is
    an address, and the balances and every row can be shown. *)
Lemma refresh_values_complete (s : State World) (a l : Z)
      (address : string) (others : list string) (bc pc : Z)
      (items : list Block) (w : World) (sa sl : string) (rows : list Row) :
  Fetched' (world s) a l (address :: others) bc pc items w ->
  Currency.format_currency a = inr sa ->
  Currency.format_currency l = inr sl ->
  make_rows strftime_local bc (flat_map transactions (rev items))
  = (rows, None) ->
  refresh_values' s
  = (inr tt,
     mkState w
             (mkView sa sl address rows (status_line bc pc (now_hms w)))
             (calls s ++ four_calls bc (address :: others))).
Proof.
  intros (w1 & w2 & w3 & E1 & E2 & E3 & E4) Fa Fl Hrows.
  pose proof (refresh_values_ways s) as H.
  destruct (refresh_values' s) as [out s'].
  inversion H; subst; same_answers;
    cbn [key_availableBalance key_addresses key_blockCount key_items] in *;
    try congruence.
  assert (sa0 = sa) as -> by congruence.
  assert (sl0 = sl) as -> by congruence.
  assert (rows0 = rows) as -> by congruence.
  reflexivity.
Qed.

(** C9, as the method has it: the requests of a cycle are an initial part
    of [getBalance], [getAddresses], [getStatus], [getTransactions], in
    this order, the cycle stopping at the first step that raises;
    [getTransactions], when issued, has the block count that [getStatus]
    returned, 1 as first block index and all the addresses that
    [getAddresses] returned; a cycle that completes has issued all four,
    and so has every cycle in which [getBalance] is answered with two
    balances that can be shown, [getAddresses] with a list that has an
    address and [getStatus] with a block count and a peer count. *)
Theorem requests_of_cycle (s : State World) :
  exists issued,
    calls (snd (refresh_values' s)) = calls s ++ issued /\
    (issued = [getBalance] \/
     issued = [getBalance; getAddresses] \/
     issued = [getBalance; getAddresses; getStatus] \/
     exists a l addresses bc pc w1 w2 w3,
       request getBalance (world s) = (Some (Balances a l), w1) /\
       request getAddresses w1 = (Some (Addresses addresses), w2) /\
       request getStatus w2 = (Some (Status bc pc), w3) /\
       issued = [getBalance; getAddresses; getStatus;
                 getTransactions bc 1 addresses]) /\
    (fst (refresh_values' s) = inr tt -> List.length issued = 4%nat) /\
    (forall a l w1 sa sl address others w2 bc pc w3,
        request getBalance (world s) = (Some (Balances a l), w1) ->
        Currency.format_currency a = inr sa ->
        Currency.format_currency l = inr sl ->
        request getAddresses w1
        = (Some (Addresses (address :: others)), w2) ->
        request getStatus w2 = (Some (Status bc pc), w3) ->
        issued = [getBalance; getAddresses; getStatus;
                  getTransactions bc 1 (address :: others)]).
Proof.
  pose proof (refresh_values_ways s) as H.
  destruct (refresh_values' s) as [out s'].
  inversion H; subst; cbn [fst snd calls];
    eexists; (split; [reflexivity|]);
    (split; [|split; [try discriminate|]]);
    try (now left); try (now right; left); try (now right; right; left);
    try (right; right; right;
         exists a, l, (address :: others), bc, pc, w1, w2, w3;
         now repeat split);
    try reflexivity;
    intros; same_answers; cbn in *; (reflexivity || congruence).
Qed.

(** C10: when [getAddresses] returns no address, the cycle ends with an
    index error at the selection of the first address: the balance labels
    are already written, everything else is as it was, and neither
    [getStatus] nor [getTransactions] is requested. *)
Theorem empty_address_list (s : State World) (a l : Z) (w1 w2 : World)
        (sa sl : string) :
  request getBalance (world s) = (Some (Balances a l), w1) ->
  Currency.format_currency a = inr sa ->
  Currency.format_currency l = inr sl ->
  request getAddresses w1 = (Some (Addresses []), w2) ->
  refresh_values' s
  = (inl IndexError,
     mkState w2
             (set_LockedBalanceAmountLabel sl
                (set_AvailableBalanceAmountLabel sa (view s)))
             (calls s ++ [getBalance; getAddresses])).
Proof.
  intros E1 Fa Fl E2.
  unfold refresh_values.
  first_request. rewrite E1.
  first_lift. cbn [key_availableBalance]. first_lift. rewrite Fa.
  first_widget. first_lift. cbn [key_lockedAmount]. first_lift. rewrite Fl.
  first_widget. first_request. rewrite E2.
  first_lift. cbn [key_addresses]. first_lift. cbn [first_address].
  reflexivity.
Qed.

(** C7, as the method has it: for an integer amount of magnitude below
    7,036,874,417,766,400 (100 times 2^46) the string shown is the amount
    divided by 100, exactly, with thousands separators and two decimal
    places: 125000 is shown as "1,250.00", 0 as "0.00", and a negative
    amount as a minus sign followed by what is shown for its opposite;
    so are shown the amount of a row and the two balances of a cycle
    that completes. *)
Theorem format_currency_exact :
  (forall x : Z,
      Z.abs x < 7036874417766400 ->
      Currency.format_currency x = inr (Currency.exact_currency x))
  /\ Currency.format_currency 125000 = inr "1,250.00"
  /\ Currency.format_currency 0 = inr "0.00"
  /\ (forall x : Z,
         x < 0 -> Z.abs x < 7036874417766400 ->
         exists shown,
           Currency.format_currency (- x) = inr shown /\
           Currency.format_currency x = inr (String "-"%char shown))
  /\ (forall blockCount transaction row,
         make_row strftime_local blockCount transaction = inr row ->
         Z.abs (amount transaction) < 7036874417766400 ->
         row_amount row = Currency.exact_currency (amount transaction))
  /\ (forall s s',
         refresh_values' s = (inr tt, s') ->
         exists available locked w,
           request getBalance (world s)
           = (Some (Balances available locked), w) /\
           (Z.abs available < 7036874417766400 ->
            AvailableBalanceAmountLabel (view s')
            = Currency.exact_currency available) /\
           (Z.abs locked < 7036874417766400 ->
            LockedBalanceAmountLabel (view s')
            = Currency.exact_currency locked)).
Proof.
  pose proof CurrencyFacts.format_currency_below as Hexact.
  split; [exact Hexact|]. split; [|split; [|split; [|split]]].
  - vm_compute. reflexivity.
  - vm_compute. reflexivity.
  - intros x Hneg Hx. exists (Currency.exact_currency (- x)).
    split.
    + apply Hexact. lia.
    + rewrite (Hexact x Hx). destruct x as [|p|p]; try lia. reflexivity.
  - intros blockCount transaction row Hrow Hx.
    apply make_row_inr in Hrow as (shown & time & Hshown & _ & ->).
    rewrite (Hexact _ Hx) in Hshown. now injection Hshown as <-.
  - intros s s' H.
    apply refresh_values_completes
      in H as (a & l & addresses & bc & pc & items & HF & _ & _ & Ha & Hl).
    destruct HF as (w1 & w2 & w3 & E1 & _).
    exists a, l, w1. split; [exact E1|]. split; intros Hx.
    + rewrite (Hexact _ Hx) in Ha. now injection Ha as <-.
    + rewrite (Hexact _ Hx) in Hl. now injection Hl as <-.
Qed.

End CycleProperties.

(** ** The cycle, run against the scripted wallet service *)

(** C1, as the claim has it, fails: when [getAddresses] raises, the
    balance labels already show the new balances. *)
Lemma rpc_failure_changes_labels :
  let s := Scripted.start Scripted.fails_at_getAddresses in
  let s' := snd (Scripted.refresh_values s) in
  fst (Scripted.refresh_values s) = inl RPCFailure /\
  calls s' = [getBalance; getAddresses] /\
  AvailableBalanceAmountLabel (view s) = "1.00" /\
  AvailableBalanceAmountLabel (view s') = "1,250.00" /\
  view s' <> view s.
Proof.
  vm_compute. repeat split; discriminate.
Qed.

(** A cycle in which [getAddresses] raises, run. *)
Lemma rpc_failure_leaves_witness :
  let s := Scripted.start Scripted.fails_at_getAddresses in
  let s' := snd (Scripted.refresh_values s) in
  Scripted.refresh_values s = (inl RPCFailure, s') /\
  transactions_list_store (view s') = transactions_list_store (view s) /\
  MainStatusLabel (view s') = MainStatusLabel (view s).
Proof.
  cbv zeta.
  assert (H : Scripted.refresh_values
                (Scripted.start Scripted.fails_at_getAddresses)
              = (inl RPCFailure,
                 snd (Scripted.refresh_values
                        (Scripted.start Scripted.fails_at_getAddresses))))
    by (vm_compute; reflexivity).
  split; [exact H|].
  pose proof (rpc_failure_leaves Scripted.World Scripted.request
                Scripted.now_hms Scripted.strftime_local _ _ H)
    as (Hstore & Hstatus & _).
  split; assumption.
Defined.

(** C2, as the claim has it, fails: a transaction without transfers has
    its row. *)
Lemma bare_transaction_has_row :
  let s' := snd (Scripted.refresh_values (Scripted.start Scripted.one_bare)) in
  fst (Scripted.refresh_values (Scripted.start Scripted.one_bare)) = inr tt /\
  transactions_list_store (view s')
  = [mkRow "In" true "5.00" "t+1500000000" None] /\
  with_transfers [mkBlock [Scripted.bare]] = [] /\
  List.length (transactions_list_store (view s'))
  <> List.length (with_transfers [mkBlock [Scripted.bare]]).
Proof.
  vm_compute. repeat split; discriminate.
Qed.

(** A complete cycle, run: three blocks, three transactions, three rows. *)
Lemma rows_count_witness :
  let s := Scripted.start Scripted.healthy in
  let s' := snd (Scripted.refresh_values s) in
  exists a l addresses bc pc items,
    Fetched Scripted.World Scripted.request
            (world s) a l addresses bc pc items (world s') /\
    List.length (transactions_list_store (view s'))
    = list_sum (map (fun block => List.length (transactions block)) items).
Proof.
  cbv zeta.
  assert (H : Scripted.refresh_values (Scripted.start Scripted.healthy)
              = (inr tt,
                 snd (Scripted.refresh_values
                        (Scripted.start Scripted.healthy))))
    by (vm_compute; reflexivity).
  exact (rows_count Scripted.World Scripted.request
                    Scripted.now_hms Scripted.strftime_local _ _ H).
Defined.

(** A complete cycle, run: the rows of the newest block come first. *)
Lemma rows_order_witness :
  let s := Scripted.start Scripted.healthy in
  let s' := snd (Scripted.refresh_values s) in
  Scripted.refresh_values s = (inr tt, s') /\
  map row_address (transactions_list_store (view s'))
  = [Some "Z"; Some "B"; None] /\
  exists a l addresses bc pc items,
    Fetched Scripted.World Scripted.request
            (world s) a l addresses bc pc items (world s') /\
    Forall2 (fun transaction row =>
               Scripted.make_row bc transaction = inr row)
            (flat_map transactions (rev items))
            (transactions_list_store (view s')).
Proof.
  cbv zeta.
  assert (H : Scripted.refresh_values (Scripted.start Scripted.healthy)
              = (inr tt,
                 snd (Scripted.refresh_values
                        (Scripted.start Scripted.healthy))))
    by (vm_compute; reflexivity).
  split; [exact H|]. split; [vm_compute; reflexivity|].
  destruct (rows_order Scripted.World Scripted.request
                       Scripted.now_hms Scripted.strftime_local _ _ H)
    as (a & l & addresses & bc & pc & items & HF & Hall & _).
  exists a, l, addresses, bc, pc, items.
  split; [exact HF|exact Hall].
Defined.

(** C9, as the claim has it, fails, and without a request that raises
    or a response that lacks a key: when [getAddresses] returns an empty
    list of addresses, the cycle issues two requests, not four. *)
Lemma two_requests_without_address :
  let s := Scripted.start Scripted.no_address in
  exists w1 w2,
    Scripted.request getBalance (world s)
    = (Some (Balances 125000 0), w1) /\
    Scripted.request getAddresses w1 = (Some (Addresses []), w2) /\
    fst (Scripted.refresh_values s) = inl IndexError /\
    calls (snd (Scripted.refresh_values s)) = [getBalance; getAddresses] /\
    List.length (calls (snd (Scripted.refresh_values s))) <> 4%nat.
Proof.
  cbv zeta. eexists. eexists.
  split; [reflexivity|]. split; [reflexivity|].
  vm_compute. repeat split. discriminate.
Qed.

(** The requests of a complete cycle, run. *)
Lemma requests_of_cycle_witness :
  calls (snd (Scripted.refresh_values (Scripted.start Scripted.healthy)))
  = [getBalance; getAddresses; getStatus;
     getTransactions 100 1 ["mine"; "other"]].
Proof.
  unfold Scripted.refresh_values.
  destruct (requests_of_cycle Scripted.World Scripted.request
              Scripted.now_hms Scripted.strftime_local
              (Scripted.start Scripted.healthy))
    as (issued & Hcalls & _ & _ & Hfour).
  rewrite Hcalls. cbn [calls Scripted.start app].
  apply (Hfour 125000 0
               [Some (Addresses ["mine"; "other"]); Some (Status 100 8);
                Some (Transactions [Scripted.B1; Scripted.B2; Scripted.B3])]
               "1,250.00" "0.00" "mine" ["other"]
               [Some (Status 100 8);
                Some (Transactions [Scripted.B1; Scripted.B2; Scripted.B3])]
               100 8
               [Some (Transactions [Scripted.B1; Scripted.B2; Scripted.B3])]);
    vm_compute; reflexivity.
Defined.

(** A cycle of a wallet without addresses, run. *)
Lemma empty_address_list_witness :
  Scripted.refresh_values (Scripted.start Scripted.no_address)
  = (inl IndexError,
     mkState [Some (Status 100 8); Some (Transactions [])]
             (mkView "1,250.00" "0.00" "old address"
                     [mkRow "In" true "3.00" "t+0" (Some "someone")]
                     "old status")
             [getBalance; getAddresses]).
Proof.
  apply (empty_address_list Scripted.World Scripted.request
           Scripted.now_hms Scripted.strftime_local
           (Scripted.start Scripted.no_address) 125000 0
           [Some (Addresses []); Some (Status 100 8); Some (Transactions [])]
           [Some (Status 100 8); Some (Transactions [])]
           "1,250.00" "0.00");
    vm_compute; reflexivity.
Defined.

(** C7, as the claim has it, fails: 7036874417766401 hundredths are shown
    with 02 after the point. *)
Lemma format_currency_inexact :
  Currency.format_currency 7036874417766401
  = inr "70,368,744,177,664.02" /\
  Currency.exact_currency 7036874417766401 = "70,368,744,177,664.01" /\
  Currency.format_currency 7036874417766401
  <> inr (Currency.exact_currency 7036874417766401).
Proof.
  vm_compute. repeat split. discriminate.
Qed.

(** The exact range, run: a negative amount. *)
Lemma format_currency_exact_witness :
  Currency.format_currency (-125000) = inr "-1,250.00".
Proof.
  exact (proj1 (format_currency_exact Scripted.World Scripted.request
                                     Scripted.now_hms
                                     Scripted.strftime_local)
               (-125000) eq_refl).
Defined.

(** ** More on the cycle *)

Section MoreOnTheCycle.

Variable World : Type.
Variable request : Request -> World -> option Response * World.
Variable now_hms : World -> string.
Variable strftime_local : Z -> option string.

Local Abbreviation cycle :=
  (refresh_values World request now_hms strftime_local).
Local Abbreviation cycle_ways :=
  (refresh_values_ways World request now_hms strftime_local).
Local Abbreviation fetched := (Fetched World request).
Local Abbreviation made := (make_row strftime_local).
Local Abbreviation loop := (update_loop World request now_hms strftime_local).

Ltac answers :=
  repeat match goal with
         | H1 : request ?r ?w = _, H2 : request ?r ?w = _ |- _ =>
             rewrite H1 in H2;
             (discriminate H2 || (injection H2; intros; subst; clear H2))
         end.

(** The rows made before the first row that raises. *)
Lemma make_rows_stops (bc : Z) (done : list RawTransaction)
      (failing : RawTransaction) (rest : list RawTransaction)
      (rows : list Row) (e : Exn) :
  Forall2 (fun t row => made bc t = inr row) done rows ->
  made bc failing = inl e ->
  make_rows strftime_local bc (done ++ failing :: rest) = (rows, Some e).
Proof.
  intros Hdone Hfailing.
  induction Hdone as [|t row done rows Ht _ IH]; cbn.
  - now rewrite Hfailing.
  - now rewrite Ht, IH.
Qed.

(** X1: a cycle that completes rebuilds the whole window: what it shows
    depends on the wallet service and the clock only, not on what the
    window showed before. *)
Theorem rebuilt_from_scratch (s1 s2 s1' : State World) :
  world s2 = world s1 ->
  cycle s1 = (inr tt, s1') ->
  exists s2',
    cycle s2 = (inr tt, s2') /\
    view s2' = view s1' /\ world s2' = world s1'.
Proof.
  intros Hw H1.
  pose proof (cycle_ways s1) as W1. rewrite H1 in W1.
  inversion W1; subst.
  eexists. split.
  - apply (refresh_values_complete World request now_hms strftime_local
             s2 a l address others bc pc items w4 sa sl rows);
      try assumption.
    rewrite Hw. now exists w1, w2, w3.
  - split; reflexivity.
Qed.


(** X3: when the four requests are answered and the row of a
    transaction cannot be made, the cycle stops at the first such
    transaction, newest block first, with what that row raises: the
    transaction list holds the rows of the transactions before it and
    nothing of what it held, the balances and the address are the new
    ones and the status line is the old one. *)
Theorem rows_of_failed_cycle (s : State World) (a l : Z)
        (address : string) (others : list string) (bc pc : Z)
        (items : list Block) (w : World) (sa sl : string)
        (done rest : list RawTransaction) (failing : RawTransaction)
        (rows : list Row) (e : Exn) :
  fetched (world s) a l (address :: others) bc pc items w ->
  Currency.format_currency a = inr sa ->
  Currency.format_currency l = inr sl ->
  flat_map transactions (rev items) = done ++ failing :: rest ->
  Forall2 (fun t row => made bc t = inr row) done rows ->
  made bc failing = inl e ->
  cycle s
  = (inl e,
     mkState w
             (mkView sa sl address rows (MainStatusLabel (view s)))
             (calls s ++ four_calls bc (address :: others))).
Proof.
  intros (w1 & w2 & w3 & E1 & E2 & E3 & E4) Fa Fl Htxs Hdone Hfailing.
  pose proof (make_rows_stops bc done failing rest rows e Hdone Hfailing)
    as Hrows.
  rewrite <- Htxs in Hrows.
  pose proof (cycle_ways s) as W.
  destruct (cycle s) as [out s'].
  inversion W; subst; answers;
    cbn [key_availableBalance key_addresses key_blockCount key_items] in *;
    try congruence.
  assert (sa0 = sa) as -> by congruence.
  assert (sl0 = sl) as -> by congruence.
  assert (rows0 = rows) as -> by congruence.
  assert (e0 = e) as -> by congruence.
  reflexivity.
Qed.

(** X4: an index error means a wallet without addresses, and nothing
    else: the cycle that raises it has had its two balances answered and
    shown and an empty list of addresses returned. *)
Theorem index_error_means_no_address (s s' : State World) :
  cycle s = (inl IndexError, s') ->
  exists a l w1 sa sl,
    request getBalance (world s) = (Some (Balances a l), w1) /\
    request getAddresses w1 = (Some (Addresses []), world s') /\
    Currency.format_currency a = inr sa /\
    Currency.format_currency l = inr sl /\
    view s' = balances_shown sa sl (view s) /\
    calls s' = calls s ++ [getBalance; getAddresses].
Proof.
  intros H. pose proof (cycle_ways s) as W. rewrite H in W.
  inversion W; subst; cbn [world view calls].
  - exists a, l, w1, sa, sl. repeat split; assumption.
  - exfalso.
    match goal with
    | E : make_rows _ _ ?txs = (_, Some IndexError) |- _ =>
        pose proof (make_rows_error strftime_local bc txs IndexError) as X;
        rewrite E in X; destruct (X eq_refl); discriminate
    end.
Qed.

Lemma flat_map_transactions_nil (blocks : list Block) :
  flat_map transactions blocks = [] <->
  Forall (fun block => transactions block = []) blocks.
Proof.
  induction blocks as [|b blocks IH]; cbn.
  - split; [constructor|reflexivity].
  - split.
    + intros H. apply app_eq_nil in H as [Hb Hr].
      constructor; [assumption|now apply IH].
    + intros H. inversion H as [|? ? Hb Hr]; subst.
      rewrite Hb. now apply IH.
Qed.

(** X6: a cycle that completes leaves the transaction list empty exactly
    when no fetched block has a transaction; the rows shown before are
    gone. *)
Theorem no_transactions_no_rows (s s' : State World) :
  cycle s = (inr tt, s') ->
  exists a l addresses bc pc items,
    fetched (world s) a l addresses bc pc items (world s') /\
    (transactions_list_store (view s') = [] <->
     Forall (fun block => transactions block = []) items).
Proof.
  intros H.
  apply refresh_values_completes
    in H as (a & l & addresses & bc & pc & items & HF & Hrows & _).
  exists a, l, addresses, bc, pc, items. split; [assumption|].
  apply make_rows_length in Hrows.
  rewrite length_flat_map_rev in Hrows.
  rewrite <- flat_map_transactions_nil, <- !length_zero_iff_nil.
  now rewrite Hrows.
Qed.

(** X7: after a cycle that completes, the copy button puts on the
    clipboard the first of the addresses that [getAddresses] returned,
    whatever the clipboard held, and changes nothing in the window. *)
Theorem copy_after_cycle (s s' : State World) (held : string) :
  cycle s = (inr tt, s') ->
  exists a l address others bc pc items,
    fetched (world s) a l (address :: others) bc pc items (world s') /\
    on_CopyButton_clicked (mkDesktop (view s') held)
    = mkDesktop (view s') address.
Proof.
  intros H. pose proof (cycle_ways s) as W. rewrite H in W.
  inversion W; subst.
  exists a, l, address, others, bc, pc, items.
  split; [now exists w1, w2, w3|reflexivity].
Qed.

(** The requests of one cycle: one at least, four at most. *)
Lemma one_to_four_requests (s : State World) :
  exists issued,
    calls (snd (cycle s)) = calls s ++ issued /\
    (1 <= List.length issued <= 4)%nat.
Proof.
  pose proof (cycle_ways s) as W.
  destruct (cycle s) as [out s'].
  inversion W; subst; cbn [snd calls]; eexists;
    (split; [reflexivity|cbn; lia]).
Qed.

(** X8: whatever the wallet service does, the cycles of [n] turns of the
    update loop issue at least [n] requests and at most [4 * n], and the
    requests issued before are still on record before them. *)
Theorem requests_of_update_loop (n : nat) (s : State World) :
  exists issued,
    calls (loop n s) = calls s ++ issued /\
    (n <= List.length issued <= 4 * n)%nat.
Proof.
  revert s. induction n as [|n IH]; intros s.
  - exists []. cbn. rewrite app_nil_r. split; [reflexivity|lia].
  - cbn [update_loop].
    destruct (one_to_four_requests s) as (first & Hfirst & Hlen).
    destruct (IH (snd (cycle s))) as (later & Hlater & Hlen').
    exists (first ++ later). split.
    + rewrite Hlater, Hfirst. now rewrite app_assoc.
    + rewrite length_app. lia.
Qed.

(** X9: while the wallet service is down, [getBalance] raising every
    time, the window keeps showing what it showed: [n] turns of the update loop
    change no widget, and each of their cycles issues the one request
    [getBalance]. *)
Theorem update_loop_while_down (n : nat) (s : State World) :
  (forall w, fst (request getBalance w) = None) ->
  view (loop n s) = view s /\
  calls (loop n s) = calls s ++ repeat getBalance n.
Proof.
  intros Hdown. revert s. induction n as [|n IH]; intros s.
  - cbn. now rewrite app_nil_r.
  - cbn [update_loop repeat].
    destruct (IH (snd (cycle s))) as [Hview Hcalls].
    rewrite Hview, Hcalls.
    pose proof (cycle_ways s) as W.
    destruct (cycle s) as [out s'].
    pose proof (Hdown (world s)) as Hb.
    inversion W; subst; cbn [snd view calls];
      try (match goal with
           | E : request getBalance (world s) = _ |- _ =>
               rewrite E in Hb; discriminate Hb
           end).
    split; [reflexivity|]. now rewrite <- app_assoc.
Qed.

End MoreOnTheCycle.

(** ** More on the rows *)

Section MoreOnRows.

Variable strftime_local : Z -> option string.

Local Abbreviation made := (make_row strftime_local).

(** The scan from an address other than [None]. *)
Lemma scan_from (desired : Z) (ts : list Transfer) (address : option string) :
  fold_left (fun address transfer =>
               if transfer_amount transfer =? desired
               then Some (transfer_address transfer)
               else address) ts address
  = match find_address desired ts with
    | Some found => Some found
    | None => address
    end.
Proof.
  rewrite find_address_unfold.
  destruct (scan_cases desired ts address)
    as [[Hall E]|(before & t & after & -> & Ht & Hafter & E)].
  - rewrite E, (scan_no_match desired ts None Hall). reflexivity.
  - rewrite E, (scan_match desired before after t None Ht Hafter).
    reflexivity.
Qed.

(** X10: over two lists of transfers one after the other, the address
    found is the one found in the second list and, only when none is
    found there, the one found in the first. *)
Theorem find_address_app (desired : Z) (ts ts' : list Transfer) :
  find_address desired (ts ++ ts')
  = match find_address desired ts' with
    | Some found => Some found
    | None => find_address desired ts
    end.
Proof.
  rewrite (find_address_unfold desired (ts ++ ts')), fold_left_app.
  rewrite <- find_address_unfold. apply scan_from.
Qed.

(** X11: as the block count grows a row changes in nothing but its
    confirmed flag, and the flag only from unconfirmed to confirmed: a
    transaction shown as confirmed stays so. *)
Theorem confirmed_for_good (blockCount blockCount' : Z)
        (transaction : RawTransaction) (row : Row) :
  blockCount <= blockCount' ->
  made blockCount transaction = inr row ->
  exists flag,
    made blockCount' transaction
    = inr (mkRow (row_direction row) flag (row_amount row) (row_time row)
                 (row_address row)) /\
    (row_confirmed row = true -> flag = true).
Proof.
  intros Hle H.
  apply make_row_inr in H as (shown & time & Hshown & Htime & ->).
  exists (confirmed blockCount' transaction). split.
  - unfold make_row. rewrite Hshown, Htime. reflexivity.
  - cbn [row_confirmed]. unfold confirmed.
    rewrite !orb_true_iff, !Z.eqb_eq, !Z.leb_le. lia.
Qed.

End MoreOnRows.

(** ** More on the currency formatting *)

Module FloatFacts.
Import Currency CurrencyFacts.

(** *** Shifting to the right *)

Lemma iter_pos_nat {A : Type} (f : A -> A) (n : positive) (x : A) :
  iter_pos f n x = Nat.iter (Pos.to_nat n) f x.
Proof.
  revert x. induction n as [n IH|n IH|]; intros x; cbn [iter_pos].
  - rewrite !IH, Pos2Nat.inj_xI.
    rewrite <- Nat.iter_add, <- Nat.iter_succ_r. f_equal. lia.
  - rewrite !IH, Pos2Nat.inj_xO, <- Nat.iter_add. f_equal. lia.
  - reflexivity.
Qed.

Lemma shr_1_steps (p : Z) (k : nat) :
  0 <= p ->
  let mrs := Nat.iter k shr_1 (Build_shr_record p false false) in
  exists q rho,
    p = 2 ^ Z.of_nat k * q + rho /\ 0 <= rho < 2 ^ Z.of_nat k /\ 0 <= q /\
    shr_m mrs = q /\ bits_of (2 ^ Z.of_nat k) rho (shr_r mrs) (shr_s mrs).
Proof.
  intros Hp. induction k as [|k IH]; cbn zeta in *.
  - exists p, 0. change (2 ^ Z.of_nat 0) with 1.
    cbn [Nat.iter shr_m shr_r shr_s bits_of]. repeat split; lia.
  - destruct IH as (q & rho & Hdec & Hrho & Hq & Hm & Hbits).
    rewrite Nat.iter_succ.
    destruct (Nat.iter k shr_1 (Build_shr_record p false false))
      as [m r s]. cbn [shr_m shr_r shr_s] in *. subst m.
    rewrite shr_1_nonneg by assumption. cbn [shr_m shr_r shr_s].
    rewrite Nat2Z.inj_succ, Z.pow_succ_r by lia.
    pose proof (Z.div2_odd q) as Hodd.
    assert (Hpos : 0 < 2 ^ Z.of_nat k) by (apply Z.pow_pos_nonneg; lia).
    set (P := 2 ^ Z.of_nat k) in *.
    exists (Z.div2 q), (P * Z.b2z (Z.odd q) + rho).
    destruct (Z.odd q); cbn [Z.b2z] in *;
      destruct r, s; cbn [orb bits_of] in *;
      repeat split; nia.
Qed.

(** The mantissa shifted by [n] bits and rounded is the quotient by
    [2 ^ n] rounded to the nearest integer, ties to even. *)
Lemma round_shifted (p n : positive) :
  round_nearest_even
    (shr_m (iter_pos shr_1 n (Build_shr_record (Zpos p) false false)))
    (loc_of_shr_record
       (iter_pos shr_1 n (Build_shr_record (Zpos p) false false)))
  = round_half_even_div (Zpos p) (2 ^ Zpos n).
Proof.
  rewrite iter_pos_nat.
  destruct (shr_1_steps (Zpos p) (Pos.to_nat n) ltac:(lia))
    as (q & rho & Hdec & Hrho & Hq & Hm & Hbits).
  rewrite positive_nat_Z in *.
  destruct (Nat.iter (Pos.to_nat n) shr_1
              (Build_shr_record (Zpos p) false false)) as [m r s].
  cbn [shr_m shr_r shr_s] in *. subst m.
  assert (Hpos : 0 < 2 ^ Zpos n) by (apply Z.pow_pos_nonneg; lia).
  unfold round_half_even_div.
  assert (Hdiv : Zpos p / 2 ^ Zpos n = q)
    by (symmetry; apply (Z.div_unique _ _ q rho); lia).
  assert (Hmod : Zpos p mod 2 ^ Zpos n = rho)
    by (symmetry; apply (Z.mod_unique _ _ q rho); lia).
  rewrite Hdiv, Hmod.
  destruct r, s; cbn [bits_of loc_of_shr_record round_nearest_even] in *.
  - destruct (Z.compare_spec (2 * rho) (2 ^ Zpos n)); lia.
  - destruct (Z.compare_spec (2 * rho) (2 ^ Zpos n)); lia.
  - destruct (Z.compare_spec (2 * rho) (2 ^ Zpos n)); lia.
  - destruct (Z.compare_spec (2 * rho) (2 ^ Zpos n)); lia.
Qed.

Lemma round_half_even_div_between (num den : Z) :
  num / den <= round_half_even_div num den <= num / den + 1.
Proof.
  unfold round_half_even_div.
  destruct (2 * (num mod den) ?= den); [destruct (Z.even (num / den))|..];
    lia.
Qed.

(** *** The float of a large integer *)

(** The second rounding of [binary_round_aux], whatever the exponent. *)
Lemma binary_round_aux_any (s : bool) (mx ex : Z) (lx : location)
      (mrs : shr_record) (e : Z) :
  shr_fexp prec emax mx ex lx = (mrs, e) ->
  let m1 := round_nearest_even (shr_m mrs) (loc_of_shr_record mrs) in
  2 ^ 52 <= m1 <= 2 ^ 53 -> -1074 <= e ->
  binary_round_aux prec emax s mx ex lx
  = if m1 =? 2 ^ 53
    then if e + 1 <=? 971
         then S754_finite s 4503599627370496 (e + 1)
         else S754_infinity s
    else if e <=? 971
         then S754_finite s (Z.to_pos m1) e
         else S754_infinity s.
Proof.
  intros H m1 Hm He. unfold binary_round_aux. rewrite H. fold m1.
  destruct (Z.eqb_spec m1 (2 ^ 53)) as [E|E].
  - rewrite E. change (2 ^ 53) with (Zpos 9007199254740992).
    rewrite shr_fexp_54 by (reflexivity || lia).
    cbn [shr_record_of_loc shr_1 shr_m]. reflexivity.
  - destruct m1 as [|p|p] eqn:Em; try lia.
    assert (Zpos (digits2_pos p) = 53)
      by (apply digits2_unique; change (53 - 1) with 52; lia).
    rewrite shr_fexp_53 by (assumption || lia).
    cbn [shr_record_of_loc shr_m Z.to_pos]. reflexivity.
Qed.

(** The float of an integer of more than 53 digits: the integer shifted
    to 53 digits and rounded, or an infinity. *)
Lemma binary_round_large (s : bool) (p : positive) :
  2 ^ 53 <= Zpos p ->
  exists n m1,
    Zpos n = Zpos (digits2_pos p) - 53 /\
    m1 = round_half_even_div (Zpos p) (2 ^ Zpos n) /\
    2 ^ 52 <= m1 <= 2 ^ 53 /\
    binary_round prec emax s p 0
    = if m1 =? 2 ^ 53
      then if Zpos n + 1 <=? 971
           then S754_finite s 4503599627370496 (Zpos n + 1)
           else S754_infinity s
      else if Zpos n <=? 971
           then S754_finite s (Z.to_pos m1) (Zpos n)
           else S754_infinity s.
Proof.
  intros Hp.
  pose proof (digits2_bounds p) as [Blo Bhi].
  set (d := Zpos (digits2_pos p)) in *.
  assert (Hd : 54 <= d).
  { destruct (Z.leb_spec 54 d); [assumption|].
    assert (2 ^ d <= 2 ^ 53) by (apply Z.pow_le_mono_r; lia). lia. }
  destruct (d - 53) as [|n|n] eqn:En; try lia.
  exists n, (round_half_even_div (Zpos p) (2 ^ Zpos n)).
  split; [reflexivity|]. split; [reflexivity|].
  assert (Hpos : 0 < 2 ^ Zpos n) by (apply Z.pow_pos_nonneg; lia).
  assert (H52 : 2 ^ (d - 1) = 2 ^ Zpos n * 2 ^ 52)
    by (rewrite <- Z.pow_add_r by lia; f_equal; lia).
  assert (H53 : 2 ^ d = 2 ^ Zpos n * 2 ^ 53)
    by (rewrite <- Z.pow_add_r by lia; f_equal; lia).
  assert (Hq : 2 ^ 52 <= Zpos p / 2 ^ Zpos n < 2 ^ 53).
  { split.
    - apply Z.div_le_lower_bound; lia.
    - apply Z.div_lt_upper_bound; lia. }
  pose proof (round_half_even_div_between (Zpos p) (2 ^ Zpos n)) as Hbetween.
  assert (Hm1 : 2 ^ 52 <=
                round_half_even_div (Zpos p) (2 ^ Zpos n) <= 2 ^ 53) by lia.
  split; [exact Hm1|].
  unfold binary_round. fold d.
  rewrite fexp_normal by lia. unfold shl_align.
  replace (d + 0 - 53 - 0) with (Zpos n) by lia.
  assert (Hshr : shr_fexp prec emax (Zpos p) 0 loc_Exact
                 = (iter_pos shr_1 n (Build_shr_record (Zpos p) false false),
                    Zpos n)).
  { unfold shr_fexp. cbn [Zdigits2]. fold d.
    rewrite fexp_normal by lia.
    replace (d + 0 - 53 - 0) with (Zpos n) by lia. reflexivity. }
  pose proof (binary_round_aux_any s _ _ _ _ _ Hshr) as Haux.
  cbv zeta in Haux. rewrite round_shifted in Haux.
  apply Haux; [exact Hm1|lia].
Qed.

(** *** Overflow *)

(** The least magnitude whose float is an infinity. *)
Local Abbreviation too_large := (2 ^ 1024 - 2 ^ 970).

(** The float of an integer is finite below 2^1024 - 2^970, and from
    there on an infinity. *)
Lemma binary_round_overflows (s : bool) (p : positive) :
  (exists s', binary_round prec emax s p 0 = S754_infinity s') <->
  too_large <= Zpos p.
Proof.
  destruct (Z.ltb_spec (Zpos p) (2 ^ 53)) as [Hsmall|Hlarge].
  - destruct (binary_round_small s p Hsmall) as (mz & ez & -> & _).
    split; [intros [s' E]; discriminate|].
    intros H. exfalso.
    assert (2 ^ 53 < too_large) by (vm_compute; reflexivity). lia.
  - destruct (binary_round_large s p Hlarge) as (n & m1 & Hn & Hm1 & Hb & ->).
    pose proof (digits2_bounds p) as [Blo Bhi].
    replace (Zpos (digits2_pos p)) with (Zpos n + 53) in * by lia.
    replace (Zpos n + 53 - 1) with (Zpos n + 52) in Blo by lia.
    destruct (Z.lt_trichotomy (Zpos n) 971) as [L|[E|G]].
    + (* fewer than 1024 digits *)
      assert (Hfin : Zpos p < too_large).
      { assert (2 ^ (Zpos n + 53) <= 2 ^ 1023)
          by (apply Z.pow_le_mono_r; lia).
        assert (2 ^ 1023 < too_large) by (vm_compute; reflexivity). lia. }
      split; [|lia].
      intros [s' E].
      destruct (m1 =? 2 ^ 53);
        [destruct (Z.leb_spec (Zpos n + 1) 971)
        |destruct (Z.leb_spec (Zpos n) 971)]; (discriminate || lia).
    + (* 1024 digits *)
      rewrite E in *. change (971 + 53) with 1024 in *.
      change (971 + 52) with 1023 in *.
      change (971 + 1 <=? 971) with false. change (971 <=? 971) with true.
      cbv iota.
      assert (Hpos : 0 < 2 ^ 971) by (vm_compute; reflexivity).
      pose proof (Z.div_mod (Zpos p) (2 ^ 971) ltac:(lia)) as Hdec.
      pose proof (Z.mod_pos_bound (Zpos p) (2 ^ 971) Hpos) as Hrho.
      assert (H1024 : 2 ^ 1024 = 2 ^ 971 * 2 ^ 53) by (vm_compute; reflexivity).
      assert (H970 : 2 ^ 971 = 2 * 2 ^ 970) by (vm_compute; reflexivity).
      assert (Hq : Zpos p / 2 ^ 971 < 2 ^ 53)
        by (apply Z.div_lt_upper_bound; lia).
      assert (H53 : 2 ^ 53 = 9007199254740992) by reflexivity.
      unfold round_half_even_div in Hm1.
      set (q := Zpos p / 2 ^ 971) in *.
      set (rho := Zpos p mod 2 ^ 971) in *.
      split.
      * intros [s' Hinf].
        destruct (Z.eqb_spec m1 (2 ^ 53)) as [E53|E53]; [|discriminate].
        destruct (Z.compare_spec (2 * rho) (2 ^ 971));
          [destruct (Z.even q) eqn:Ev|..]; try lia.
      * intros Hbig.
        destruct (Z.eqb_spec m1 (2 ^ 53)) as [E53|E53];
          [now exists s|]. exfalso.
        assert (Hq' : q = 2 ^ 53 - 1) by nia.
        clearbody q rho. subst q.
        change (Z.even (2 ^ 53 - 1)) with false in Hm1.
        destruct (Z.compare_spec (2 * rho) (2 ^ 971)); lia.
    + (* more than 1024 digits *)
      assert (Hbig : too_large <= Zpos p).
      { assert (2 ^ 1024 <= 2 ^ (Zpos n + 52))
          by (apply Z.pow_le_mono_r; lia).
        assert (0 < 2 ^ 970) by (vm_compute; reflexivity). lia. }
      split; [intros _; exact Hbig|]. intros _.
      destruct (m1 =? 2 ^ 53);
        [destruct (Z.leb_spec (Zpos n + 1) 971)
        |destruct (Z.leb_spec (Zpos n) 971)]; try lia; now exists s.
Qed.

(** *** The float of any integer, and its quotient by [100.] *)

(** A float of 53 digits, as the floats of the integers are. *)
Lemma binary_round_normal (s : bool) (p : positive) :
  (exists s', binary_round prec emax s p 0 = S754_infinity s') \/
  exists mz ez,
    binary_round prec emax s p 0 = S754_finite s mz ez /\
    Zpos (digits2_pos mz) = 53 /\ -52 <= ez <= 971.
Proof.
  destruct (Z.ltb_spec (Zpos p) (2 ^ 53)) as [Hsmall|Hlarge].
  - right.
    destruct (binary_round_small s p Hsmall) as (mz & ez & E & Hd & He & _).
    exists mz, ez. repeat split; (assumption || lia).
  - destruct (binary_round_large s p Hlarge) as (n & m1 & Hn & Hm1 & Hb & ->).
    destruct (Z.eqb_spec m1 (2 ^ 53)) as [E53|E53].
    + destruct (Z.leb_spec (Zpos n + 1) 971); [right|left; now exists s].
      exists 4503599627370496%positive, (Zpos n + 1).
      repeat split; (reflexivity || lia).
    + destruct (Z.leb_spec (Zpos n) 971); [right|left; now exists s].
      exists (Z.to_pos m1), (Zpos n).
      repeat split; try lia.
      apply digits2_unique. rewrite Z2Pos.id by lia.
      change (53 - 1) with 52. lia.
Qed.

(** The quotient by [100.] of a float of 53 digits: a float of the same
    sign, the exponent lowered by 7 or by 6 and the mantissa within half
    a unit of the exact one. *)
Lemma div_hundred_near (s : bool) (mz : positive) (ez : Z) :
  Zpos (digits2_pos mz) = 53 -> -52 <= ez <= 971 ->
  exists mf ef,
    SFdiv prec emax (S754_finite s mz ez) hundred = S754_finite s mf ef /\
    ((ef = ez - 7 /\ Z.abs (100 * Zpos mf - 128 * Zpos mz) <= 50) \/
     (ef = ez - 6 /\ Z.abs (100 * Zpos mf - 64 * Zpos mz) <= 50)).
Proof.
  intros Hd He.
  pose proof (digits2_bounds mz) as Hmz. rewrite Hd in Hmz.
  change (53 - 1) with 52 in Hmz.
  change (2 ^ 52) with 4503599627370496 in Hmz.
  change (2 ^ 53) with 9007199254740992 in Hmz.
  rewrite hundred_eq. cbn [SFdiv]. rewrite xorb_false_r.
  unfold SFdiv_core_binary. cbn [Zdigits2]. rewrite Hd.
  change (Zpos (digits2_pos 7036874417766400)) with 53.
  rewrite fexp_normal by lia.
  replace (Z.min (53 + ez - (53 + -46) - 53) (ez - -46)) with (ez - 7) by lia.
  replace (ez - -46 - (ez - 7)) with 53 by lia.
  cbv iota. rewrite Z.shiftl_mul_pow2 by lia.
  change (2 ^ 53) with 9007199254740992.
  pose proof (Z_div_mod (Zpos mz * 9007199254740992) 7036874417766400
                        eq_refl) as Hdiv.
  destruct (Z.div_eucl (Zpos mz * 9007199254740992) 7036874417766400)
    as [q r].
  destruct Hdiv as [HN Hr].
  assert (Hq : 4503599627370496 <= q < 18014398509481984) by lia.
  destruct q as [|q|q]; try lia.
  destruct (Z.ltb_spec (Zpos q) 9007199254740992) as [Hq53|Hq54].
  - assert (Hdq : Zpos (digits2_pos q) = 53)
      by (apply digits2_unique; change (53 - 1) with 52;
          change (2 ^ 52) with 4503599627370496;
          change (2 ^ 53) with 9007199254740992; lia).
    pose proof (round_quotient (Zpos q) r _ HN Hr) as Hm. cbn zeta in Hm.
    rewrite (binary_round_aux_rounded s _ _ _ _ _
               (shr_fexp_53 q (ez - 7) _ Hdq ltac:(lia)));
      rewrite ?shr_m_record_of_loc, ?loc_of_record_of_loc;
      change (2 ^ 52) with 4503599627370496;
      change (2 ^ 53) with 9007199254740992; try lia.
    set (m1 := round_nearest_even (Zpos q)
                 (new_location 7036874417766400 r)) in *.
    destruct (Z.eqb_spec m1 9007199254740992) as [E|E].
    + exists 4503599627370496%positive, (ez - 7 + 1).
      split; [reflexivity|]. right. lia.
    + exists (Z.to_pos m1), (ez - 7).
      split; [reflexivity|]. left.
      rewrite Z2Pos.id by lia. lia.
  - assert (Hdq : Zpos (digits2_pos q) = 54)
      by (apply digits2_unique; change (54 - 1) with 53;
          change (2 ^ 54) with 18014398509481984;
          change (2 ^ 53) with 9007199254740992; lia).
    pose proof (round_quotient_shifted (Zpos q) r _ ltac:(lia) HN Hr) as Hm.
    cbn zeta in Hm.
    pose proof (Z.div2_odd (Zpos q)) as Hodd.
    assert (Hb : 0 <= Z.b2z (Z.odd (Zpos q)) <= 1)
      by (destruct (Z.odd (Zpos q)); cbn; lia).
    rewrite (binary_round_aux_rounded s _ _ _ _ _
               (shr_fexp_54 q (ez - 7) _ Hdq ltac:(lia)));
      change (2 ^ 52) with 4503599627370496;
      change (2 ^ 53) with 9007199254740992; try lia.
    set (mrs := shr_1 (shr_record_of_loc (Zpos q)
                         (new_location 7036874417766400 r))) in *.
    set (m1 := round_nearest_even (shr_m mrs) (loc_of_shr_record mrs)) in *.
    destruct (Z.eqb_spec m1 9007199254740992) as [E|E]; [lia|].
    exists (Z.to_pos m1), (ez - 7 + 1).
    split; [reflexivity|]. right.
    rewrite Z2Pos.id by lia. lia.
Qed.

Lemma div_hundred_finite (s : bool) (mz : positive) (ez : Z) :
  Zpos (digits2_pos mz) = 53 -> -52 <= ez <= 971 ->
  exists mf ef,
    SFdiv prec emax (S754_finite s mz ez) hundred = S754_finite s mf ef.
Proof.
  intros Hd He.
  destruct (div_hundred_near s mz ez Hd He) as (mf & ef & E & _).
  now exists mf, ef.
Qed.

(** A quotient rounded is within one of any integer that the quotient is
    within one of. *)
Lemma round_half_even_div_within (num den k : Z) :
  0 < den -> Z.abs (num - k * den) < den ->
  Z.abs (round_half_even_div num den - k) <= 1.
Proof.
  intros Hden H.
  pose proof (round_half_even_div_between num den) as Hb.
  pose proof (Z.div_mod num den ltac:(lia)) as E.
  pose proof (Z.mod_pos_bound num den Hden) as B.
  assert (num / den = k \/ num / den = k - 1) as [Q|Q] by nia.
  - rewrite Q in *. unfold round_half_even_div in *. rewrite Q.
    destruct (Z.compare_spec (2 * (num mod den)) den);
      [destruct (Z.even k)|..]; lia.
  - lia.
Qed.

(** The hundredths shown for an integer below 2^53. *)
Lemma hundredths_within_one (s : bool) (p : positive) :
  Zpos p < 2 ^ 53 ->
  exists mf ef,
    SFdiv prec emax (binary_round prec emax s p 0) hundred
    = S754_finite s mf ef /\
    Z.abs (hundredths mf ef - Zpos p) <= 1.
Proof.
  intros Hp.
  destruct (binary_round_small s p Hp) as (mz & ez & -> & Hd & He & Hm).
  destruct (div_hundred_near s mz ez Hd ltac:(lia))
    as (mf & ef & Hq & Hcases).
  exists mf, ef. split; [exact Hq|].
  assert (Ht : 1 <= 2 ^ (- ez)) by (apply (Z.pow_le_mono_r 2 0); lia).
  rewrite hundredths_neg by lia.
  apply round_half_even_div_within.
  - apply Z.pow_pos_nonneg; lia.
  - destruct Hcases as [[-> Hnear]|[-> Hnear]].
    + replace (- (ez - 7)) with (7 + - ez) by lia.
      rewrite Z.pow_add_r by lia. change (2 ^ 7) with 128.
      replace (Zpos p * (128 * 2 ^ (- ez))) with (128 * Zpos mz)
        by (rewrite Hm; ring).
      lia.
    + replace (- (ez - 6)) with (6 + - ez) by lia.
      rewrite Z.pow_add_r by lia. change (2 ^ 6) with 64.
      replace (Zpos p * (64 * 2 ^ (- ez))) with (64 * Zpos mz)
        by (rewrite Hm; ring).
      lia.
Qed.

(** The sign of a float of an integer is the sign asked for. *)
Lemma binary_round_aux_opp (m e : Z) (l : location) :
  binary_round_aux prec emax true m e l
  = SFopp (binary_round_aux prec emax false m e l).
Proof.
  unfold binary_round_aux.
  destruct (shr_fexp prec emax m e l) as [mrs e'].
  destruct (shr_fexp prec emax _ e' loc_Exact) as [mrs' e''].
  destruct (shr_m mrs'); try reflexivity.
  now destruct (e'' <=? emax - prec).
Qed.

Lemma binary_round_opp (p : positive) :
  binary_round prec emax true p 0 = SFopp (binary_round prec emax false p 0).
Proof.
  unfold binary_round.
  destruct (shl_align p 0 _) as [mz ez]. apply binary_round_aux_opp.
Qed.

Lemma div_hundred_opp (mz : positive) (ez : Z) :
  SFdiv prec emax (S754_finite true mz ez) hundred
  = SFopp (SFdiv prec emax (S754_finite false mz ez) hundred).
Proof.
  rewrite hundred_eq. cbn [SFdiv xorb].
  destruct (SFdiv_core_binary prec emax (Zpos mz) ez _ _) as [[m e] l].
  apply binary_round_aux_opp.
Qed.

(** What is shown for an integer other than 0: overflow, or the sign and
    the hundredths of the quotient. *)
Lemma format_currency_cases (s : bool) (p : positive) :
  let x := if s then Zneg p else Zpos p in
  (format_currency x = inl OverflowError /\ too_large <= Zpos p) \/
  (exists mf ef,
      Zpos p < too_large /\
      format_currency (Zpos p) = inr (render false (hundredths mf ef)) /\
      format_currency (Zneg p) = inr (render true (hundredths mf ef))).
Proof.
  cbn zeta.
  destruct (binary_round_normal false p)
    as [Hinf|(mz & ez & E & Hd & He)].
  - left. pose proof (proj1 (binary_round_overflows false p) Hinf) as Hbig.
    split; [|exact Hbig].
    destruct Hinf as [s' E].
    unfold format_currency, float_of_int.
    destruct s; cbn [binary_normalize];
      [rewrite binary_round_opp|]; rewrite E; reflexivity.
  - right.
    destruct (div_hundred_finite false mz ez Hd He) as (mf & ef & Hq).
    exists mf, ef. split; [|split].
    + destruct (Z.ltb_spec (Zpos p) too_large) as [L|G]; [exact L|].
      apply (binary_round_overflows false p) in G as [s' G].
      rewrite E in G. discriminate.
    + unfold format_currency, float_of_int. cbn [binary_normalize].
      rewrite E, Hq. reflexivity.
    + unfold format_currency, float_of_int. cbn [binary_normalize].
      rewrite binary_round_opp, E. cbn [SFopp negb].
      rewrite div_hundred_opp, Hq. reflexivity.
Qed.

(** *** The characters shown *)

Lemma hundredths_nonneg (m : positive) (e : Z) : 0 <= hundredths m e.
Proof.
  destruct e as [|k|k]; cbn [hundredths].
  - lia.
  - assert (0 <= 2 ^ Zpos k) by (apply Z.pow_nonneg; lia). nia.
  - assert (0 < 2 ^ Zpos k) by (apply Z.pow_pos_nonneg; lia).
    pose proof (round_half_even_div_between (Zpos m * 100) (2 ^ Zpos k)).
    assert (0 <= Zpos m * 100 / 2 ^ Zpos k) by (apply Z.div_pos; lia).
    lia.
Qed.

Lemma string_of_uint_digits (u : Decimal.uint) :
  Forall is_digit (list_ascii_of_string (NilEmpty.string_of_uint u)).
Proof.
  induction u; cbn; constructor; trivial; unfold is_digit; cbn; tauto.
Qed.

Lemma digits_digits (n : Z) : Forall is_digit (digits n) /\ digits n <> [].
Proof.
  unfold digits. destruct (N.to_uint (Z.to_N n)) as [|u|u|u|u|u|u|u|u|u|u];
    (split;
     [first [apply (string_of_uint_digits (Decimal.D0 u))
            |apply (string_of_uint_digits (Decimal.D1 u))
            |apply (string_of_uint_digits (Decimal.D2 u))
            |apply (string_of_uint_digits (Decimal.D3 u))
            |apply (string_of_uint_digits (Decimal.D4 u))
            |apply (string_of_uint_digits (Decimal.D5 u))
            |apply (string_of_uint_digits (Decimal.D6 u))
            |apply (string_of_uint_digits (Decimal.D7 u))
            |apply (string_of_uint_digits (Decimal.D8 u))
            |apply (string_of_uint_digits (Decimal.D9 u))
            |cbn; constructor; [unfold is_digit; cbn; tauto|constructor]]
     |cbn; discriminate]).
Qed.

Lemma two_digits_two (k : Z) :
  0 <= k < 100 ->
  List.length (two_digits k) = 2%nat /\ Forall is_digit (two_digits k).
Proof.
  intros Hk. split.
  - rewrite <- (Z2Nat.id k) by lia.
    assert (Hn : (Z.to_nat k < 100)%nat) by lia.
    revert Hn. generalize (Z.to_nat k) as n. intros n Hn.
    do 100 (destruct n as [|n]; [reflexivity|]). lia.
  - unfold two_digits. destruct (k <? 10).
    + constructor; [unfold is_digit; cbn; tauto|apply digits_digits].
    + apply digits_digits.
Qed.

Lemma group_rev_four (a b c d : ascii) (rest : list ascii) :
  group_rev (a :: b :: c :: d :: rest)
  = [a; b; c; ","%char] ++ group_rev (d :: rest).
Proof. reflexivity. Qed.

Lemma group_rev_grouped (n : nat) (l : list ascii) :
  (List.length l <= n)%nat -> l <> [] -> Forall is_digit l ->
  Grouped (rev (group_rev l)).
Proof.
  revert l. induction n as [|n IH]; intros l Hlen Hne Hall.
  - destruct l; [contradiction|cbn in Hlen; lia].
  - destruct l as [|a [|b [|c [|d rest]]]]; [contradiction|..].
    + apply grouped_first; [discriminate|cbn; lia|assumption].
    + apply grouped_first;
        [discriminate|cbn; lia|apply Forall_rev; assumption].
    + apply grouped_first;
        [discriminate|cbn; lia|apply Forall_rev; assumption].
    + inversion Hall as [|? ? Ha Hall1]; subst.
      inversion Hall1 as [|? ? Hb Hall2]; subst.
      inversion Hall2 as [|? ? Hc Hall3]; subst.
      rewrite group_rev_four, rev_app_distr.
      change (rev [a; b; c; ","%char]) with [","%char; c; b; a].
      apply grouped_next; try assumption.
      apply IH; [cbn in *; lia|discriminate|assumption].
Qed.

Lemma group_grouped (ds : list ascii) :
  ds <> [] -> Forall is_digit ds -> Grouped (group ds).
Proof.
  intros Hne Hall. unfold group.
  apply (group_rev_grouped (List.length (rev ds))).
  - lia.
  - intros E. apply Hne. rewrite <- (rev_involutive ds), E. reflexivity.
  - now apply Forall_rev.
Qed.

(** A rendered number: sign, grouped whole part, point, two digits. *)
Lemma render_shape (negative : bool) (h : Z) :
  0 <= h ->
  exists whole cents,
    list_ascii_of_string (render negative h)
    = (if negative then ["-"%char] else []) ++ whole ++ "."%char :: cents /\
    Grouped whole /\
    List.length cents = 2%nat /\ Forall is_digit cents.
Proof.
  intros Hh. unfold render.
  rewrite list_ascii_of_string_of_list_ascii.
  exists (group (digits (h / 100))), (two_digits (h mod 100)).
  split; [reflexivity|].
  split; [apply group_grouped; apply digits_digits|].
  apply two_digits_two. apply Z.mod_pos_bound. lia.
Qed.

End FloatFacts.

Section Shown.

Variable strftime_local : Z -> option string.

(** X12: the formatting of an amount, of a balance or of a transaction,
    raises exactly from the magnitude 2^1024 - 2^970 on, where the float
    of the amount would be an infinity. *)
Theorem overflow_exactly (x : Z) :
  Currency.format_currency x = inl OverflowError <->
  2 ^ 1024 - 2 ^ 970 <= Z.abs x.
Proof.
  destruct x as [|p|p].
  - split; [vm_compute; discriminate|].
    intros H. exfalso.
    assert (0 < 2 ^ 1024 - 2 ^ 970) by (vm_compute; reflexivity).
    cbn in H. lia.
  - destruct (FloatFacts.format_currency_cases false p)
      as [[E Hbig]|(mf & ef & Hsmall & E & _)]; cbn zeta in *.
    + split; [intros _; exact Hbig|intros _; exact E].
    + rewrite E. split; [discriminate|]. cbn [Z.abs]. lia.
  - destruct (FloatFacts.format_currency_cases true p)
      as [[E Hbig]|(mf & ef & Hsmall & _ & E)]; cbn zeta in *.
    + split; [intros _; exact Hbig|intros _; exact E].
    + rewrite E. split; [discriminate|]. cbn [Z.abs]. lia.
Qed.

(** X13: a negative amount is shown as a minus sign followed by what is
    shown for its opposite, and raises when its opposite does, whatever
    the magnitude. *)
Theorem minus_sign (x : Z) :
  0 < x ->
  Currency.format_currency (- x)
  = match Currency.format_currency x with
    | inl e => inl e
    | inr shown => inr (String "-"%char shown)
    end.
Proof.
  intros Hx. destruct x as [|p|p]; try lia. cbn [Z.opp].
  destruct (FloatFacts.format_currency_cases true p)
    as [[E Hbig]|(mf & ef & Hsmall & Epos & Eneg)]; cbn zeta in *.
  - rewrite E.
    destruct (FloatFacts.format_currency_cases false p)
      as [[E' _]|(mf & ef & Hsmall & _)]; cbn zeta in *; [|lia].
    now rewrite E'.
  - rewrite Eneg, Epos. reflexivity.
Qed.

(** X14: whatever is shown for an amount has the shape of a currency
    amount: a minus sign exactly when the amount is negative, then
    digits in groups of three separated by commas, a point and two
    digits; also where the two digits are not the exact ones. *)
Theorem shown_shape (x : Z) (shown : string) :
  Currency.format_currency x = inr shown ->
  exists whole cents,
    list_ascii_of_string shown
    = (if x <? 0 then ["-"%char] else []) ++ whole ++ "."%char :: cents /\
    Grouped whole /\
    List.length cents = 2%nat /\ Forall is_digit cents.
Proof.
  destruct x as [|p|p].
  - intros H. vm_compute in H. injection H as <-.
    apply (FloatFacts.render_shape false 0). lia.
  - destruct (FloatFacts.format_currency_cases false p)
      as [[E _]|(mf & ef & _ & E & _)]; cbn zeta in *;
      rewrite E; [discriminate|].
    intros [= <-].
    apply (FloatFacts.render_shape false), FloatFacts.hundredths_nonneg.
  - destruct (FloatFacts.format_currency_cases true p)
      as [[E _]|(mf & ef & _ & _ & E)]; cbn zeta in *;
      rewrite E; [discriminate|].
    intros [= <-].
    apply (FloatFacts.render_shape true), FloatFacts.hundredths_nonneg.
Qed.

(** X15: for an amount of magnitude below 2^53 what is shown is the sign
    and a number of hundredths at most one away from the amount: beyond
    100 * 2^46 the second decimal can be wrong, by one. *)
Theorem within_one_hundredth (x : Z) :
  Z.abs x < 2 ^ 53 ->
  exists h,
    Currency.format_currency x = inr (Currency.render (x <? 0) h) /\
    Z.abs (h - Z.abs x) <= 1.
Proof.
  intros Hx. unfold Currency.format_currency, Currency.float_of_int.
  destruct x as [|p|p].
  - exists 0. split; [vm_compute; reflexivity|cbn; lia].
  - cbn [binary_normalize].
    destruct (FloatFacts.hundredths_within_one false p Hx)
      as (mf & ef & E & Hnear).
    destruct (CurrencyFacts.binary_round_small false p Hx)
      as (mz & ez & Ef & _).
    rewrite Ef in *. rewrite E.
    exists (Currency.hundredths mf ef). split; [reflexivity|exact Hnear].
  - cbn [binary_normalize].
    destruct (FloatFacts.hundredths_within_one true p Hx)
      as (mf & ef & E & Hnear).
    destruct (CurrencyFacts.binary_round_small true p Hx)
      as (mz & ez & Ef & _).
    rewrite Ef in *. rewrite E.
    exists (Currency.hundredths mf ef). split; [reflexivity|exact Hnear].
Qed.

End Shown.

(** ** More runs against the scripted wallet service *)

(** A complete cycle from two different windows, run. *)
Lemma rebuilt_from_scratch_witness :
  exists s',
    Scripted.refresh_values (MoreScripts.other_start Scripted.healthy)
    = (inr tt, s') /\
    view s'
    = view (snd (Scripted.refresh_values (Scripted.start Scripted.healthy)))
    /\ world s'
       = world (snd (Scripted.refresh_values
                       (Scripted.start Scripted.healthy))).
Proof.
  apply (rebuilt_from_scratch Scripted.World Scripted.request
           Scripted.now_hms Scripted.strftime_local
           (Scripted.start Scripted.healthy)
           (MoreScripts.other_start Scripted.healthy)).
  - reflexivity.
  - vm_compute. reflexivity.
Defined.


(** A cycle whose second row raises, run: the first row is in the list
    and nothing else. *)
Lemma rows_of_failed_cycle_witness :
  Scripted.refresh_values (Scripted.start MoreScripts.stops_at_second_row)
  = (inl OverflowError,
     mkState []
             (mkView "1,250.00" "0.00" "mine"
                     [mkRow "In" true "1,250.00" "t+1500000001" (Some "Z")]
                     "old status")
             [getBalance; getAddresses; getStatus;
              getTransactions 100 1 ["mine"]]).
Proof.
  apply (rows_of_failed_cycle Scripted.World Scripted.request
           Scripted.now_hms Scripted.strftime_local
           (Scripted.start MoreScripts.stops_at_second_row)
           125000 0 "mine" [] 100 8
           [mkBlock [Scripted.bare];
            mkBlock [Scripted.reward; MoreScripts.too_much]]
           [] "1,250.00" "0.00"
           [Scripted.reward] [Scripted.bare] MoreScripts.too_much
           [mkRow "In" true "1,250.00" "t+1500000001" (Some "Z")]
           OverflowError).
  - exists [Some (Addresses ["mine"]); Some (Status 100 8);
            Some (Transactions
                    [mkBlock [Scripted.bare];
                     mkBlock [Scripted.reward; MoreScripts.too_much]])],
      [Some (Status 100 8);
       Some (Transactions
               [mkBlock [Scripted.bare];
                mkBlock [Scripted.reward; MoreScripts.too_much]])],
      [Some (Transactions
               [mkBlock [Scripted.bare];
                mkBlock [Scripted.reward; MoreScripts.too_much]])].
    repeat split.
  - vm_compute. reflexivity.
  - vm_compute. reflexivity.
  - reflexivity.
  - constructor; [vm_compute; reflexivity|constructor].
  - vm_compute. reflexivity.
Defined.

(** A cycle of a wallet without addresses, run backwards. *)
Lemma index_error_means_no_address_witness :
  let s := Scripted.start Scripted.no_address in
  let s' := snd (Scripted.refresh_values s) in
  exists a l w1 sa sl,
    Scripted.request getBalance (world s) = (Some (Balances a l), w1) /\
    Scripted.request getAddresses w1 = (Some (Addresses []), world s') /\
    Currency.format_currency a = inr sa /\
    Currency.format_currency l = inr sl /\
    view s' = balances_shown sa sl (view s) /\
    calls s' = calls s ++ [getBalance; getAddresses].
Proof.
  cbv zeta.
  apply (index_error_means_no_address Scripted.World Scripted.request
           Scripted.now_hms Scripted.strftime_local).
  vm_compute. reflexivity.
Defined.

(** A complete cycle over blocks without transactions, run. *)
Lemma no_transactions_no_rows_witness :
  let s := Scripted.start MoreScripts.empty_blocks in
  let s' := snd (Scripted.refresh_values s) in
  transactions_list_store (view s) <> [] /\
  transactions_list_store (view s') = [] /\
  exists a l addresses bc pc items,
    Fetched Scripted.World Scripted.request
            (world s) a l addresses bc pc items (world s') /\
    (transactions_list_store (view s') = [] <->
     Forall (fun block => transactions block = []) items).
Proof.
  cbv zeta.
  split; [discriminate|]. split; [vm_compute; reflexivity|].
  apply (no_transactions_no_rows Scripted.World Scripted.request
           Scripted.now_hms Scripted.strftime_local).
  vm_compute. reflexivity.
Defined.

(** A complete cycle and a click on the copy button, run. *)
Lemma copy_after_cycle_witness :
  let s' := snd (Scripted.refresh_values (Scripted.start Scripted.healthy)) in
  clipboard (on_CopyButton_clicked (mkDesktop (view s') "held")) = "mine" /\
  exists a l address others bc pc items,
    Fetched Scripted.World Scripted.request
            Scripted.healthy a l (address :: others) bc pc items (world s') /\
    on_CopyButton_clicked (mkDesktop (view s') "held")
    = mkDesktop (view s') address.
Proof.
  cbv zeta. split; [vm_compute; reflexivity|].
  apply (copy_after_cycle Scripted.World Scripted.request
           Scripted.now_hms Scripted.strftime_local
           (Scripted.start Scripted.healthy)).
  vm_compute. reflexivity.
Defined.

(** Three turns of the update loop while the wallet service is down,
    run. *)
Lemma update_loop_while_down_witness :
  view (Down.update_loop 3 Down.start) = Scripted.shown /\
  calls (Down.update_loop 3 Down.start)
  = [getBalance; getBalance; getBalance].
Proof.
  apply (update_loop_while_down Down.World Down.request Down.now_hms
           Scripted.strftime_local 3 Down.start).
  intros w. reflexivity.
Defined.

(** A reward maturing at height 60, shown at block counts 100 and
    101. *)
Lemma confirmed_for_good_witness :
  Scripted.make_row 100 Scripted.reward
  = inr (mkRow "In" true "1,250.00" "t+1500000001" (Some "Z")) /\
  exists flag,
    Scripted.make_row 101 Scripted.reward
    = inr (mkRow "In" flag "1,250.00" "t+1500000001" (Some "Z")) /\
    (true = true -> flag = true).
Proof.
  assert (H : Scripted.make_row 100 Scripted.reward
              = inr (mkRow "In" true "1,250.00" "t+1500000001" (Some "Z")))
    by (vm_compute; reflexivity).
  split; [exact H|].
  exact (confirmed_for_good Scripted.strftime_local 100 101 Scripted.reward
           _ ltac:(lia) H).
Defined.

(** The minus sign, run. *)
Lemma minus_sign_witness :
  Currency.format_currency (- 125000) = inr "-1,250.00".
Proof.
  exact (minus_sign 125000 eq_refl).
Defined.

(** The shape of what is shown for -125000. *)
Lemma shown_shape_witness :
  exists whole cents,
    list_ascii_of_string "-1,250.00"
    = ["-"%char] ++ whole ++ "."%char :: cents /\
    Grouped whole /\
    List.length cents = 2%nat /\ Forall is_digit cents.
Proof.
  apply (shown_shape (-125000) "-1,250.00").
  vm_compute. reflexivity.
Defined.

(** What is shown for 7036874417766401, one hundredth off. *)
Lemma within_one_hundredth_witness :
  exists h,
    Currency.format_currency 7036874417766401
    = inr (Currency.render false h) /\
    Z.abs (h - 7036874417766401) <= 1.
Proof.
  exact (within_one_hundredth 7036874417766401 eq_refl).
Defined.
